(** * image2video: the media-generation pipeline of [create_video_ui.py]

    A shallow embedding of the pipeline functions of
    [src/create_video_ui.py] ([get_exif_data], [process_image],
    [get_audio_duration], [process_audio_for_video],
    [is_encoder_available], [create_video]) and the properties of the
    specification checked against them, followed by the parts of the
    window class [VideoCreatorApp] that drive the pipeline and by further
    properties of both.

    Modelling conventions.
    - External tools are the environment: every [subprocess.run] is answered
      by an outcome supplied by an environment record ([Completed] with exit
      code and captured text, [TimedOut] where the call has a timeout,
      [CannotStart] when the executable cannot be launched, which Python
      reports as [FileNotFoundError]).
    - Python exceptions are explicit: fallible code returns [result A].
    - Python [float] values are idealised as exact rationals [Q]; rounding,
      overflow and NaN are outside the model.  Module [Binary64] re-runs
      the frame geometry on IEEE binary64 numbers, and the two are shown to
      agree for every width below 8192.
    - Characters are 8-bit code points ([ascii]).
    - [print] and the formatting of log lines never fail; the progress
      callback, [tempfile.mkdtemp] and [shutil.rmtree] return normally. *)

From Stdlib Require Import ZArith QArith Qround Qabs String Ascii List Bool Lia.
From Stdlib Require Import DecimalString DecimalPos Floats.
From stdpp Require Import gmap strings list.

Open Scope Z_scope.
Open Scope string_scope.

(** ** Exceptions *)

Inductive exn : Type :=
| FileNotFoundError
| TimeoutExpired
| IndexError
| KeyError
| ValueError
| JSONDecodeError
| TypeError
| ZeroDivisionError
| UnboundLocalError.

Inductive result (A : Type) : Type :=
| Ret (a : A)
| Raise (e : exn).

Arguments Ret {A} a.
Arguments Raise {A} e.

Definition bind {A B : Type} (r : result A) (k : A -> result B) : result B :=
  match r with
  | Ret a => k a
  | Raise e => Raise e
  end.

Notation "x <- r ;; k" := (bind r (fun x => k))
  (at level 100, r at next level, right associativity).

(** ** Python string primitives *)

Module Py.

(** [str.isspace] on code points below 256. *)
Definition isspace (c : ascii) : bool :=
  let n := nat_of_ascii c in
  ((9 <=? n) && (n <=? 13) || (28 <=? n) && (n <=? 32)
   || (n =? 133) || (n =? 160))%nat.

Fixpoint lstrip (l : list ascii) : list ascii :=
  match l with
  | c :: l' => if isspace c then lstrip l' else l
  | [] => []
  end.

(** [s.strip()] *)
Definition strip (s : string) : string :=
  string_of_list_ascii
    (rev (lstrip (rev (lstrip (list_ascii_of_string s))))).

(** [s.split(sep)] for a one-character separator: the pieces between the
    occurrences of [sep]; never the empty list. *)
Fixpoint split_aux (sep : ascii) (cur : list ascii) (l : list ascii)
  : list string :=
  match l with
  | [] => [string_of_list_ascii (rev cur)]
  | c :: l' =>
      if Ascii.eqb c sep
      then string_of_list_ascii (rev cur) :: split_aux sep [] l'
      else split_aux sep (c :: cur) l'
  end.

Definition split (sep : ascii) (s : string) : list string :=
  split_aux sep [] (list_ascii_of_string s).

(** [s.replace(' ', '')] *)
Definition remove_spaces (s : string) : string :=
  string_of_list_ascii
    (List.filter (fun c => negb (Ascii.eqb c " ")) (list_ascii_of_string s)).

(** [needle in hay] *)
Fixpoint contains (needle hay : string) : bool :=
  String.prefix needle hay
  || match hay with
     | EmptyString => false
     | String _ hay' => contains needle hay'
     end.

Definition digit (c : ascii) : option Z :=
  let n := nat_of_ascii c in
  if ((48 <=? n) && (n <=? 57))%nat then Some (Z.of_nat n - 48) else None.

(** Digits of an integer literal; [after_digit] tells whether the previous
    character was a digit, the only place where an underscore may stand. *)
Fixpoint digits (acc : Z) (after_digit : bool) (l : list ascii) : option Z :=
  match l with
  | [] => if after_digit then Some acc else None
  | c :: l' =>
      match digit c with
      | Some d => digits (10 * acc + d) true l'
      | None =>
          if Ascii.eqb c "_" && after_digit then digits acc false l' else None
      end
  end.

(** [int(s)]: [None] stands for [ValueError]. *)
Definition int (s : string) : option Z :=
  match list_ascii_of_string (strip s) with
  | "-"%char :: l => Z.opp <$> digits 0 false l
  | "+"%char :: l => digits 0 false l
  | l => digits 0 false l
  end.

(** [str(z)] and [f"{z}"] for an integer. *)
Definition str (z : Z) : string := NilZero.string_of_int (Z.to_int z).

(** [int(x)] for a float: truncation toward zero. *)
Definition int_of_float (q : Q) : Z := Z.quot (Qnum q) (Zpos (Qden q)).

(** [math.ceil(x)] *)
Definition ceil (q : Q) : Z := Qceiling q.

(** [d[k]] on a dictionary with string keys. *)
Definition getitem (d : gmap string string) (k : string) : result string :=
  match d !! k with
  | Some v => Ret v
  | None => Raise KeyError
  end.

End Py.

(** ** The environment's answer to [subprocess.run] *)

Inductive run_outcome : Type :=
| Completed (returncode : Z) (stdout : string)
| TimedOut
| CannotStart.

(** ** Metadata extractor *)

(** [result.stdout.strip().split('\n')] *)
Definition output_lines (stdout : string) : list string :=
  Py.split "010" (Py.strip stdout).

(** [lines[k].replace(' ', '').split(':')[1] if len(lines) > k else 'N/A'] *)
Definition exif_field (lines : list string) (k : nat) : result string :=
  if (k <? length lines)%nat then
    let line := nth k lines EmptyString in
    match Py.split ":" (Py.remove_spaces line) !! 1%nat with
    | Some v => Ret v
    | None => Raise IndexError
    end
  else Ret "N/A".

(** [get_exif_data(image_path)], given the outcome of the [exiftool] run.
    The call passes no timeout, and only [CalledProcessError] and
    [FileNotFoundError] are caught. *)
Definition get_exif_data (tool : run_outcome) : result (gmap string string) :=
  match tool with
  | Completed _ stdout =>
      let lines := output_lines stdout in
      make <- exif_field lines 0 ;;
      iso <- exif_field lines 1 ;;
      shutter <- exif_field lines 2 ;;
      fnumber <- exif_field lines 3 ;;
      Ret (<["make" := make]> (<["iso" := iso]>
            (<["shutter" := shutter]> (<["fnumber" := fnumber]> ∅))))
  | CannotStart =>
      Ret (<["iso" := "N/A"]> (<["shutter" := "N/A"]> ∅))
  | TimedOut => Raise TimeoutExpired
  end.

(** ** Frame compositor *)

(** [os.path.join(a, b)] with POSIX separators. *)
Definition path_join (a b : string) : string :=
  if String.prefix "/" b then b
  else match rev (list_ascii_of_string a) with
       | [] => b
       | c :: _ => if Ascii.eqb c "/" then a ++ b else a ++ "/" ++ b
       end.

(** What surrounds one call of [process_image]: the three tools it runs,
    the installation directory and the clock. *)
Record image_world : Type := {
  thirdparty_dir : string;
  ffprobe_dims : string -> run_outcome;        (* argument: input path *)
  exiftool : string -> run_outcome;            (* argument: input path *)
  ffmpeg_compose : list string -> run_outcome; (* argument: the command *)
  today : string                               (* strftime('%Y-%m-%d') *)
}.

Record frame_spec : Type := {
  bg_width : Z;
  bg_height : Z;
  info_height : Z;
  total_height : Z;
  font_size : Z
}.

(** The geometry computed in the body of [process_image] from the probed
    width. *)
Definition frame_geometry (width : Z) : frame_spec :=
  let bg_height := Py.int_of_float (inject_Z (width * 9) / 16) in
  let bg_width := width in
  let info_height := Py.int_of_float (inject_Z bg_height * (2 # 10)) in
  let total_height := bg_height + info_height in
  let font_size :=
    Z.max 40 (Py.int_of_float (inject_Z total_height * (25 # 1000))) in
  {| bg_width := bg_width; bg_height := bg_height;
     info_height := info_height; total_height := total_height;
     font_size := font_size |}.

(** The caption generated when no text is supplied. *)
Definition auto_caption (w : image_world) (input_path : string)
  : result string :=
  exif_data <- get_exif_data (exiftool w input_path) ;;
  let fallback := Ret ("Processed " ++ today w) in
  iso <- Py.getitem exif_data "iso" ;;
  if String.eqb iso "N/A" then fallback else
  shutter <- Py.getitem exif_data "shutter" ;;
  if String.eqb shutter "N/A" then fallback else
  fnumber <- Py.getitem exif_data "fnumber" ;;
  if String.eqb fnumber "N/A" then fallback else
  make <- Py.getitem exif_data "make" ;;
  Ret (make ++ " f/" ++ fnumber ++ " " ++ shutter ++ "s ISO" ++ iso).

Definition shadow_size : Z := 10.
Definition shadow_opacity : string := "0.05".

Definition filter_complex (g : frame_spec) (text : string) : string :=
  let s := Py.str in
  "[0:v]scale=w=" ++ s (bg_width g) ++ ":h=" ++ s (bg_height g)
    ++ ":force_original_aspect_ratio=decrease[fg];"
  ++ "[0:v]scale=w=" ++ s (bg_width g) ++ ":h=" ++ s (total_height g)
    ++ ":force_original_aspect_ratio=increase,"
  ++ "crop=w=" ++ s (bg_width g) ++ ":h=" ++ s (total_height g)
    ++ ",boxblur=30:10[bg];"
  ++ "[fg]pad=w=iw+" ++ s shadow_size ++ "*2:h=ih+" ++ s shadow_size
    ++ "*2:x=" ++ s shadow_size ++ ":y=" ++ s shadow_size ++ ":"
  ++ "color=black@" ++ shadow_opacity ++ ",split[fg_padded][fg_shadow];"
  ++ "[fg_shadow]boxblur=10:10[shadow];"
  ++ "[bg][shadow]overlay=x=(W-w)/2:y=(" ++ s (total_height g)
    ++ "-h)/2-30[combined];"
  ++ "[combined][fg_padded]overlay=x=(W-w)/2:y=(" ++ s (total_height g)
    ++ "-h)/2-30[base];"
  ++ "[base]drawtext=text='" ++ text ++ "':fontcolor=white:fontsize="
    ++ s (font_size g) ++ ":"
  ++ "x=(w-tw)/2:y=" ++ s (bg_height g) ++ "+"
    ++ s (Py.int_of_float (inject_Z (info_height g) / 2)) ++ "-"
    ++ s (Py.int_of_float (inject_Z (font_size g) / 2)) ++ "+50".

Definition compose_cmd (w : image_world) (input_path output_path : string)
    (g : frame_spec) (text : string) : list string :=
  [path_join (thirdparty_dir w) "ffmpeg"; "-i"; input_path;
   "-filter_complex"; filter_complex g text; "-y"; output_path].

(** [process_image(input_path, output_path, text)] *)
Definition process_image (w : image_world)
    (input_path output_path text : string) : result bool :=
  match ffprobe_dims w input_path with
  | CannotStart => Raise FileNotFoundError
  | TimedOut => Ret false
  | Completed returncode stdout =>
      if negb (returncode =? 0)%Z then Ret false else
      let dimensions := Py.split "," (Py.strip stdout) in
      if (length dimensions <? 2)%nat then Ret false else
      match Py.int (nth 0 dimensions EmptyString),
            Py.int (nth 1 dimensions EmptyString) with
      | Some width, Some height =>
          let g := frame_geometry width in
          text <- (if String.eqb text EmptyString
                   then auto_caption w input_path
                   else Ret text) ;;
          match ffmpeg_compose w (compose_cmd w input_path output_path g text)
          with
          | CannotStart => Raise FileNotFoundError
          | TimedOut => Ret false
          | Completed returncode _ => Ret (returncode =? 0)%Z
          end
      | _, _ => Ret false
      end
  end.

(** ** Audio conditioner *)

(** Values produced by [json.loads]. *)
#[warnings="-register-all"]
Inductive json : Type :=
| JNull
| JBool (b : bool)
| JInt (z : Z)
| JFloat (q : Q)
| JString (s : string)
| JArray (items : list json)
| JObject (members : list (string * json)).

(** An argument of a command line: a string, or [str(x)] of a float. *)
Inductive arg : Type :=
| Lit (s : string)
| StrFloat (q : Q).

(** What surrounds one call of [process_audio_for_video]. *)
Record audio_world : Type := {
  audio_tools_dir : string;                 (* [thirdparty_dir] *)
  ffprobe_duration : string -> run_outcome; (* argument: audio path *)
  json_loads : string -> option json;       (* [None]: JSONDecodeError *)
  float_of_str : string -> option Q;        (* [None]: ValueError *)
  ffmpeg_audio : list arg -> run_outcome    (* argument: the command *)
}.

(** [d[k]] for a string key on a decoded JSON value: the last member named
    [k] of an object, [KeyError] when there is none, [TypeError] on
    anything that is not an object. *)
Fixpoint members_get (members : list (string * json)) (k : string)
  : option json :=
  match members with
  | [] => None
  | (k', v) :: rest =>
      match members_get rest k with
      | Some v' => Some v'
      | None => if String.eqb k' k then Some v else None
      end
  end.

Definition json_getitem (j : json) (k : string) : result json :=
  match j with
  | JObject members =>
      match members_get members k with
      | Some v => Ret v
      | None => Raise KeyError
      end
  | _ => Raise TypeError
  end.

(** [float(x)] on a decoded JSON value. *)
Definition json_float (w : audio_world) (j : json) : result Q :=
  match j with
  | JInt z => Ret (inject_Z z)
  | JFloat q => Ret q
  | JBool b => Ret (if b then 1%Q else 0%Q)
  | JString s =>
      match float_of_str w s with
      | Some q => Ret q
      | None => Raise ValueError
      end
  | JNull | JArray _ | JObject _ => Raise TypeError
  end.

(** [try: r except (names): handler] *)
Definition try_except {A : Type} (r : result A) (caught : exn -> bool)
    (handler : result A) : result A :=
  match r with
  | Ret a => Ret a
  | Raise e => if caught e then handler else Raise e
  end.

(** [get_audio_duration(audio_path)] *)
Definition get_audio_duration (w : audio_world) (audio_path : string)
  : result Q :=
  try_except
    (match ffprobe_duration w audio_path with
     | CannotStart => Raise FileNotFoundError
     | TimedOut => Raise TimeoutExpired
     | Completed _ stdout =>
         data <- match json_loads w stdout with
                 | Some j => Ret j
                 | None => Raise JSONDecodeError
                 end ;;
         format <- json_getitem data "format" ;;
         duration <- json_getitem format "duration" ;;
         json_float w duration
     end)
    (fun e => match e with
              | KeyError | JSONDecodeError | TimeoutExpired => true
              | _ => false
              end)
    (Ret 0%Q).

Definition audio_cmd (w : audio_world) (audio_path : string)
    (loop_count : Z) (video_duration : Q) (processed_audio : string)
  : list arg :=
  [Lit (path_join (audio_tools_dir w) "ffmpeg");
   Lit "-y";
   Lit "-stream_loop"; Lit (Py.str loop_count);
   Lit "-i"; Lit audio_path;
   Lit "-t"; StrFloat video_duration;
   Lit "-vn";
   Lit "-acodec"; Lit "libmp3lame";
   Lit "-b:a"; Lit "192k";
   Lit "-f"; Lit "mp3";
   Lit processed_audio].

(** [process_audio_for_video(audio_path, video_duration, temp_dir)];
    [None] is Python's [None]. *)
Definition process_audio_for_video (w : audio_world)
    (audio_path : string) (video_duration : Q) (temp_dir : string)
  : result (option string) :=
  let processed_audio := path_join temp_dir "processed_audio.mp3" in
  audio_duration <- get_audio_duration w audio_path ;;
  if Qle_bool audio_duration 0 then Ret None else
  let loop_count := Py.ceil (video_duration / audio_duration) in
  match ffmpeg_audio w
          (audio_cmd w audio_path loop_count video_duration processed_audio)
  with
  | CannotStart => Raise FileNotFoundError
  | TimedOut => Ret None
  | Completed returncode _ =>
      if negb (returncode =? 0)%Z then Ret None else Ret (Some processed_audio)
  end.

(** ** Encoder capability probe *)

(** [is_encoder_available(encoder_name)], given the outcome of
    [ffmpeg -codecs]. *)
Definition is_encoder_available (codecs : run_outcome) (encoder_name : string)
  : bool :=
  match codecs with
  | Completed _ stdout => Py.contains encoder_name stdout
  | CannotStart => false
  | TimedOut => false
  end.

(** ** Sequence assembler *)

(** A Python number: the progress callback receives both kinds. *)
Inductive num : Type :=
| Int (z : Z)
| Float (q : Q).

(** One invocation [progress_callback(current, total, phase)]. *)
Record progress_call : Type := {
  current : num;
  total : num;
  phase : string
}.

(** The lines [create_video] prints. *)
Inductive msg : Type :=
| MsgProcessing (total_images : nat)
| MsgProcessed (position total_images : nat) (img_path : string)
| MsgSkipping (img_path : string)
| MsgNoValidImages
| MsgProcessingMusic
| MsgWithoutAudio
| MsgUsingEncoder (name : string)
| MsgCreatingVideo
| MsgExecuting (cmd : list arg)
| MsgVideoCreationError
| MsgErrorCreatingVideo (returncode : Z)
| MsgSuccess (output_video : string)
| MsgVideoDuration (total_duration : Q)
| MsgNumberOfImages (count : nat).

(** The answer of the environment to the final [subprocess.Popen]: it
    cannot start the tool, or the tool prints some lines and exits.
    [polls] holds, for every printed line, whether [proc.poll() is None]
    (the process still running) when that line is read. *)
Inductive mux_outcome : Type :=
| MuxCannotStart
| MuxRan (polls : list bool) (returncode : Z).

(** What surrounds one run of [create_video]. *)
Record env : Type := {
  mkdtemp : string;                  (* what [tempfile.mkdtemp] creates *)
  tools_dir : string;                (* [thirdparty_dir] *)
  image_env : nat -> image_world;    (* around the call for the i-th image *)
  audio_env : audio_world;
  codecs : run_outcome;              (* [ffmpeg -codecs] *)
  mux : list arg -> mux_outcome      (* argument: the command *)
}.

(** What a run changes: the directories that exist, the progress calls
    received by the caller, the printed lines, the mux commands started. *)
Record state : Type := {
  dirs : gset string;
  calls : list progress_call;
  printed : list msg;
  launched : list (list arg)
}.

(** State and exceptions: the state reached is kept when an exception
    propagates. *)
Definition M (A : Type) : Type := state -> result A * state.

Definition ret {A : Type} (a : A) : M A := fun st => (Ret a, st).

Definition raise {A : Type} (e : exn) : M A := fun st => (Raise e, st).

Definition mbind {A B : Type} (m : M A) (k : A -> M B) : M B :=
  fun st =>
    match m st with
    | (Ret a, st') => k a st'
    | (Raise e, st') => (Raise e, st')
    end.

Definition lift {A : Type} (r : result A) : M A := fun st => (r, st).

Notation "x <~ m ;; k" := (mbind m (fun x => k))
  (at level 100, m at next level, right associativity).
Notation "m ;;; k" := (mbind m (fun _ => k))
  (at level 100, right associativity).

Definition print (m : msg) : M unit :=
  fun st => (Ret tt, {| dirs := dirs st; calls := calls st;
                        printed := printed st ++ [m];
                        launched := launched st |}).

Definition call_progress (c t : num) (ph : string) : M unit :=
  let call := {| current := c; total := t; phase := ph |} in
  fun st => (Ret tt, {| dirs := dirs st; calls := calls st ++ [call];
                        printed := printed st;
                        launched := launched st |}).

Definition make_dir (d : string) : M unit :=
  fun st => (Ret tt, {| dirs := {[d]} ∪ dirs st; calls := calls st;
                        printed := printed st; launched := launched st |}).

(** [shutil.rmtree(d)] *)
Definition rmtree (d : string) : M unit :=
  fun st => (Ret tt, {| dirs := dirs st ∖ {[d]}; calls := calls st;
                        printed := printed st; launched := launched st |}).

Definition launch (cmd : list arg) : M unit :=
  fun st => (Ret tt, {| dirs := dirs st; calls := calls st;
                        printed := printed st;
                        launched := launched st ++ [cmd] |}).

(** [if progress_callback: progress_callback(c, t, ph)] *)
Definition notify (progress_callback : bool) (c t : num) (ph : string)
  : M unit :=
  if progress_callback then call_progress c t ph else ret tt.

(** [f"frame_{i:04d}.png"] *)
Definition frame_name (i : nat) : string :=
  let d := Py.str (Z.of_nat i) in
  let zeros := String.concat EmptyString (repeat "0" (4 - String.length d)) in
  "frame_" ++ zeros ++ d ++ ".png".

(** The loop over [enumerate(image_paths)]; [i] is the index of the head of
    [image_paths] and [processed_images] the list built so far. *)
Fixpoint process_images (e : env) (temp_dir : string)
    (progress_callback : bool) (total_images : nat) (i : nat)
    (image_paths : list string) (processed_images : list string)
  : M (list string) :=
  match image_paths with
  | [] => ret processed_images
  | img_path :: rest =>
      let output_path := path_join temp_dir (frame_name i) in
      ok <~ lift (process_image (image_env e i) img_path output_path
                    EmptyString) ;;
      processed_images <~
        (if ok : bool then
           print (MsgProcessed (i + 1) total_images img_path) ;;;
           notify progress_callback
             (Int (Z.of_nat i + 1)) (Int (Z.of_nat total_images))
             "processing" ;;;
           ret (processed_images ++ [output_path])%list
         else
           print (MsgSkipping img_path) ;;;
           ret processed_images) ;;
      process_images e temp_dir progress_callback total_images (S i) rest
        processed_images
  end.

(** [70 + 30 * (proc.poll() is None) / 2] *)
Definition mux_progress (running : bool) : Q :=
  (70 + 30 * (if running then 1 else 0) / 2)%Q.

(** The loop over the lines of the mux process; [progress] is the local
    variable of that name, [None] while it is unbound. *)
Fixpoint read_lines (progress_callback : bool) (polls : list bool)
    (progress : option Q) : M (option Q) :=
  match polls with
  | [] => ret progress
  | running :: rest =>
      if progress_callback then
        let p := mux_progress running in
        call_progress (Float p) (Int 100) "compiling" ;;;
        read_lines progress_callback rest (Some p)
      else read_lines progress_callback rest progress
  end.

Definition mux_cmd (e : env) (temp_dir : string) (framerate : Q)
    (final_audio : option string) (video_codec pix_fmt : string)
    (bitrate_options : list arg) (output_video : string) : list arg :=
  ([Lit (path_join (tools_dir e) "ffmpeg"); Lit "-y";
   Lit "-framerate"; StrFloat framerate;
   Lit "-i"; Lit (path_join temp_dir "frame_%04d.png")]
  ++ match final_audio with
     | Some a => [Lit "-i"; Lit a]
     | None => []
     end
  ++ [Lit "-c:v"; Lit video_codec] ++ bitrate_options
  ++ [Lit "-r"; Lit "25"; Lit "-pix_fmt"; Lit pix_fmt;
      Lit "-movflags"; Lit "+faststart"]
  ++ match final_audio with
     | Some _ => [Lit "-c:a"; Lit "aac"; Lit "-b:a"; Lit "192k";
                  Lit "-map"; Lit "0:v:0"; Lit "-map"; Lit "1:a:0"]
     | None => [Lit "-an"]
     end
  ++ [Lit output_video])%list.

(** [len(processed_images) * duration] *)
Definition total_duration_of (processed_images : list string) (duration : Q)
  : Q :=
  inject_Z (Z.of_nat (length processed_images)) * duration.

(** The audio stage: [final_audio] after the [if music:] block. *)
Definition condition_audio (e : env) (music : option string)
    (total_duration : Q) (temp_dir : string) : M (option string) :=
  match music with
  | None => ret None
  | Some m =>
      if String.eqb m EmptyString then ret None else
      print MsgProcessingMusic ;;;
      final_audio <~ lift (process_audio_for_video (audio_env e) m
                             total_duration temp_dir) ;;
      match final_audio with
      | Some _ => ret final_audio
      | None => print MsgWithoutAudio ;;; ret None
      end
  end.

(** The [try] block around [subprocess.Popen]: the exit code and the
    local variable [progress] after it. *)
Definition run_mux (e : env) (progress_callback : bool) (cmd : list arg)
  : M (Z * option Q) :=
  match mux e cmd with
  | MuxCannotStart => print MsgVideoCreationError ;;; ret (-1, None)
  | MuxRan polls returncode =>
      launch cmd ;;;
      progress <~ read_lines progress_callback polls None ;;
      ret (returncode, progress)
  end.

(** [create_video(image_paths, output_video, duration, music,
    progress_callback)]; [progress_callback] tells whether a callback is
    supplied, and its invocations are recorded in [calls]. *)
Definition create_video (e : env) (image_paths : list string)
    (output_video : string) (duration : Q) (music : option string)
    (progress_callback : bool) : M bool :=
  let temp_dir := mkdtemp e in
  make_dir temp_dir ;;;
  let total_images := length image_paths in
  print (MsgProcessing total_images) ;;;
  processed_images <~ process_images e temp_dir progress_callback
                        total_images 0 image_paths [] ;;
  match processed_images with
  | [] =>
      print MsgNoValidImages ;;;
      rmtree temp_dir ;;;
      ret false
  | _ :: _ =>
      let total_duration := total_duration_of processed_images duration in
      final_audio <~ condition_audio e music total_duration temp_dir ;;
      let video_codec :=
        if is_encoder_available (codecs e) "libx264" then "libx264"
        else "h264" in
      let pix_fmt := "yuv420p" in
      let bitrate_options := [Lit "-b:v"; Lit "8M"] in
      print (MsgUsingEncoder video_codec) ;;;
      framerate <~ (if Qeq_bool duration 0 then raise ZeroDivisionError
                    else ret (1 / duration)%Q) ;;
      let ffmpeg_cmd :=
        mux_cmd e temp_dir framerate final_audio video_codec pix_fmt
          bitrate_options output_video in
      print MsgCreatingVideo ;;;
      print (MsgExecuting ffmpeg_cmd) ;;;
      notify progress_callback (Int 0) (Int 0) "compiling" ;;;
      r <~ run_mux e progress_callback ffmpeg_cmd ;;
      let returncode := fst r in
      let progress := snd r in
      rmtree temp_dir ;;;
      if negb (returncode =? 0)%Z then
        print (MsgErrorCreatingVideo returncode) ;;;
        ret false
      else
        print (MsgSuccess output_video) ;;;
        print (MsgVideoDuration total_duration) ;;;
        print (MsgNumberOfImages (length processed_images)) ;;;
        match progress with
        | None => raise UnboundLocalError
        | Some p =>
            if progress_callback
            then call_progress (Float p) (Int 100) "compiling"
            else raise TypeError
        end ;;;
        ret true
  end.

(** The state before a run: nothing printed, no call received. *)
Definition initial (existing : gset string) : state :=
  {| dirs := existing; calls := []; printed := []; launched := [] |}.


(** ** The frame geometry on IEEE binary64 numbers

    The same computation as [frame_geometry], carried out on Python's
    actual floats: conversions and products are rounded to the nearest
    binary64 number, and [int(x)] truncates the result. *)

Module Binary64.

(** [float(z)] for an integer. *)
Definition of_int (z : Z) : float :=
  SF2Prim (binary_normalize prec emax z 0 false).

(** [a / 2**k] for two integers: the quotient rounded once. *)
Definition int_div_pow2 (a k : Z) : float :=
  SF2Prim (binary_normalize prec emax a (- k) false).

(** [int(x)]: the magnitude m * 2^e without its fractional bits, with the
    sign of x; [None] stands for the error raised on an infinity or a
    NaN. *)
Definition to_int (x : float) : option Z :=
  match Prim2SF x with
  | S754_zero _ => Some 0
  | S754_finite negative m e =>
      let v := if (0 <=? e)%Z then Z.shiftl (Z.pos m) e
               else Z.shiftr (Z.pos m) (- e) in
      Some (if negative then - v else v)
  | S754_infinity _ | S754_nan => None
  end.

(** The literals [0.2] and [0.025] as Python reads them. *)
Definition one_fifth : float := 0x1.999999999999ap-3%float.
Definition one_fortieth : float := 0x1.999999999999ap-6%float.

Definition frame_geometry (width : Z) : option frame_spec :=
  match to_int (int_div_pow2 (width * 9) 4) with
  | None => None
  | Some bg_height =>
      match to_int (PrimFloat.mul (of_int bg_height) one_fifth) with
      | None => None
      | Some info_height =>
          let total_height := bg_height + info_height in
          match to_int (PrimFloat.mul (of_int total_height) one_fortieth) with
          | None => None
          | Some scaled =>
              Some {| bg_width := width; bg_height := bg_height;
                      info_height := info_height;
                      total_height := total_height;
                      font_size := Z.max 40 scaled |}
          end
      end
  end.

End Binary64.

Definition frame_spec_eqb (g h : frame_spec) : bool :=
  (bg_width g =? bg_width h)%Z && (bg_height g =? bg_height h)%Z
  && (info_height g =? info_height h)%Z
  && (total_height g =? total_height h)%Z
  && (font_size g =? font_size h)%Z.

(** The binary64 geometry of width [w] is the idealised one. *)
Definition geometry_agrees (w : Z) : bool :=
  match Binary64.frame_geometry w with
  | Some g => frame_spec_eqb g (frame_geometry w)
  | None => false
  end.

(** [f] holds of 0, ..., n - 1. *)
Fixpoint all_below (n : nat) (f : Z -> bool) : bool :=
  match n with
  | O => true
  | S k => f (Z.of_nat k) && all_below k f
  end.
(** * The specification's statements *)

(** ** Frame geometry *)




(** ** Metadata *)




(** The value read from one line: the piece after its first colon, spaces
    removed. *)
Definition field_value (line : string) : string :=
  nth 1 (Py.split ":" (Py.remove_spaces line)) EmptyString.

(** The value expected for the field of position [k]. *)
Definition expected_field (lines : list string) (k : nat) : string :=
  match lines !! k with
  | Some line => field_value line
  | None => "N/A"
  end.

Definition has_colon (line : string) : Prop :=
  In ":"%char (list_ascii_of_string line).

(** ** Frame compositor *)






(** ** Runs of the sequence assembler *)

(** The composition attempt [create_video] makes for the image of index
    [i]. *)
Definition attempt (e : env) (temp_dir : string) (i : nat)
    (img_path : string) : result bool :=
  process_image (image_env e i) img_path
    (path_join temp_dir (frame_name i)) EmptyString.

(** [outcomes e temp_dir i image_paths bs]: the attempts for [image_paths],
    numbered from [i], all return, and [bs] lists what they return. *)
Fixpoint outcomes (e : env) (temp_dir : string) (i : nat)
    (image_paths : list string) (bs : list bool) : Prop :=
  match image_paths, bs with
  | [], [] => True
  | img_path :: rest, b :: bs' =>
      attempt e temp_dir i img_path = Ret b
      /\ outcomes e temp_dir (S i) rest bs'
  | _, _ => False
  end.

(** The frames of the attempts that succeeded. *)
Fixpoint kept_frames (temp_dir : string) (i : nat) (bs : list bool)
  : list string :=
  match bs with
  | [] => []
  | b :: bs' =>
      ((if b then [path_join temp_dir (frame_name i)] else [])
       ++ kept_frames temp_dir (S i) bs')%list
  end.

Definition processing_call (position total_images : nat) : progress_call :=
  {| current := Int (Z.of_nat position + 1);
     total := Int (Z.of_nat total_images);
     phase := "processing" |}.

(** One "processing" call for each attempt that succeeded. *)
Fixpoint processing_calls (total_images : nat) (i : nat) (bs : list bool)
  : list progress_call :=
  match bs with
  | [] => []
  | b :: bs' =>
      ((if b then [processing_call i total_images] else [])
       ++ processing_calls total_images (S i) bs')%list
  end.

(** The specification's reading: one "processing" call after every
    attempt, successful or not. *)
Definition one_call_per_attempt (e : env) (temp_dir : string)
    (image_paths : list string) (st : state) : Prop :=
  forall bs,
    outcomes e temp_dir 0 image_paths bs ->
    calls (snd (process_images e temp_dir true (length image_paths) 0
                  image_paths [] st))
    = (calls st
       ++ processing_calls (length image_paths) 0
            (map (fun _ => true) bs))%list.

(** The specification's reading: the scratch directory is gone when the
    run ends, whatever the outcome. *)
Definition scratch_removed (e : env) (image_paths : list string)
    (output_video : string) (duration : Q) (music : option string)
    (progress_callback : bool) (st : state) : Prop :=
  mkdtemp e ∉ dirs (snd (create_video e image_paths output_video duration
                           music progress_callback st)).

(** ** Audio conditioning *)





(** ** Progress of the muxing stage *)

(** The call made when a line of the mux output is read. *)
Definition compiling_call (running : bool) : progress_call :=
  {| current := Float (mux_progress running);
     total := Int 100;
     phase := "compiling" |}.

(** The value of the local variable [progress] after the lines are read,
    from its value [p] before. *)
Definition progress_after (polls : list bool) (p : option Q) : option Q :=
  fold_left (fun _ running => Some (mux_progress running)) polls p.

Definition compiling_start : progress_call :=
  {| current := Int 0; total := Int 0; phase := "compiling" |}.

(** The number of attempts that succeeded. *)
Definition successes (bs : list bool) : nat := length (List.filter id bs).

(** * Sample environments *)

Definition newline : string := String "010" EmptyString.

(** An image whose probe and composition end as given; no metadata tool
    is installed. *)
Definition sample_image (probe compose : run_outcome) : image_world :=
  {| thirdparty_dir := "/app/thirdparty";
     ffprobe_dims := fun _ => probe;
     exiftool := fun _ => CannotStart;
     ffmpeg_compose := fun _ => compose;
     today := "2025-01-01" |}.

Definition good_image : image_world :=
  sample_image (Completed 0 ("1920,1080" ++ newline))
    (Completed 0 EmptyString).

Definition bad_image : image_world :=
  sample_image (Completed 0 ("1920,1080" ++ newline))
    (Completed 1 "Invalid data found when processing input").

(** The probing tool is not installed. *)
Definition unprobed_image : image_world :=
  sample_image CannotStart CannotStart.

Definition no_audio : audio_world :=
  {| audio_tools_dir := "/app/thirdparty";
     ffprobe_duration := fun _ => TimedOut;
     json_loads := fun _ => None;
     float_of_str := fun _ => None;
     ffmpeg_audio := fun _ => TimedOut |}.

Definition sample_env (images : nat -> image_world) (m : mux_outcome) : env :=
  {| mkdtemp := "/tmp/video_frames_a1";
     tools_dir := "/app/thirdparty";
     image_env := images;
     audio_env := no_audio;
     codecs := Completed 0 "DEV.LS h264 (encoders: libx264 )";
     mux := fun _ => m |}.

(** The mux prints one line while running and exits with code 0. *)
Definition quick_mux : mux_outcome := MuxRan [true] 0.

(** The first image fails, the second composes. *)
Definition second_only : env :=
  sample_env (fun i => if Nat.eqb i 0 then bad_image else good_image)
    quick_mux.

Definition all_good : env := sample_env (fun _ => good_image) quick_mux.

(** The mux exits with code 0 without printing a line. *)
Definition silent_mux_env : env :=
  sample_env (fun _ => good_image) (MuxRan [] 0).

(** * The desktop caller

    The parts of [VideoCreatorApp] that drive the pipeline:
    [update_progress_label], the closure [progress_callback] of
    [run_creation], [run_creation] and the validation of [start_creation].
    Widgets are reduced to the values they hold.  The interface state is
    disjoint from the pipeline state, so the calls recorded by
    [create_video] are replayed on it in order; the callback returns
    normally on every call a run can make, so the run itself is the one
    modelled with a callback that returns normally. *)

Definition num_value (n : num) : Q :=
  match n with
  | Int z => inject_Z z
  | Float q => q
  end.

(** The texts of the progress label. *)
Inductive label : Type :=
| LabelReady                                    (* the idle text *)
| LabelStarting                                 (* set by [start_creation] *)
| LabelProcessing (current total : num) (percent : Q)
| LabelCompilingBusy                            (* no percentage shown *)
| LabelCompiling (percent : Q)
| LabelDone (percent : Q).

(** [update_progress_label(current, total, phase)]; [phase] is [None] when
    the argument is omitted. *)
Definition update_progress_label (current total : num)
    (phase : option string) : result label :=
  let phase_is ph := match phase with
               | Some p => String.eqb p ph
               | None => false
               end in
  if phase_is "processing" then
    if Qeq_bool (num_value total) 0 then Raise ZeroDivisionError
    else Ret (LabelProcessing current total
                (num_value current / num_value total * 100))
  else if phase_is "compiling" then
    Ret (if Qeq_bool (num_value total) 0 then LabelCompilingBusy
         else LabelCompiling (num_value current))
  else
    Ret (if Qeq_bool (num_value current) 0 then LabelReady
         else LabelDone (num_value current)).

Inductive dialog : Type :=
| InfoCreated (output_path : string)
| ErrorCreationFailed
| ErrorRaised (e : exn)
| ErrorNoImages
| ErrorNoOutput
| ErrorBadDuration
| WarningTooManyImages.

(** What the window shows. *)
Record gui : Type := {
  progress_var : Q;
  progress_label : label;
  create_btn_enabled : bool;
  dialogs : list dialog
}.

Definition set_progress (g : gui) (progress : Q) (l : label) : gui :=
  {| progress_var := progress; progress_label := l;
     create_btn_enabled := create_btn_enabled g; dialogs := dialogs g |}.

Definition show_dialog (g : gui) (d : dialog) : gui :=
  {| progress_var := progress_var g; progress_label := progress_label g;
     create_btn_enabled := create_btn_enabled g;
     dialogs := (dialogs g ++ [d])%list |}.

(** [min(a, b)] *)
Definition py_min (a b : Q) : Q := if Qlt_le_dec b a then b else a.

(** The closure [progress_callback(current, total, phase)] defined in
    [run_creation]. *)
Definition progress_callback (c : progress_call) (g : gui) : result gui :=
  if String.eqb (phase c) "processing" then
    if Qeq_bool (num_value (total c)) 0 then Raise ZeroDivisionError else
    let progress :=
      py_min 70 (num_value (current c) / num_value (total c) * 70) in
    l <- update_progress_label (Float progress) (Int 100) None ;;
    Ret (set_progress g progress l)
  else if String.eqb (phase c) "compiling" then
    let progress := py_min 100 (70 + num_value (current c) / 100 * 30) in
    l <- update_progress_label (Float progress) (Int 100) None ;;
    Ret (set_progress g progress l)
  else Ret g.

(** The recorded calls, delivered in order. *)
Fixpoint deliver (cs : list progress_call) (g : gui) : result gui :=
  match cs with
  | [] => Ret g
  | c :: rest => g' <- progress_callback c g ;; deliver rest g'
  end.

(** [run_creation(img_paths, output_path, duration, music, text)];
    [existing] are the directories present when the run starts, and the
    file [temp_img_list.txt] is taken to be writable.  The result is the
    window afterwards and the run of [create_video]. *)
Definition run_creation (e : env) (existing : gset string)
    (img_paths : list string) (output_path : string) (duration : Q)
    (music : option string) (text : string) (g : gui)
  : gui * (result bool * state) :=
  let finish (g : gui) : gui :=
    {| progress_var := progress_var g;
       progress_label :=
         match update_progress_label (Int 100) (Int 100) None with
         | Ret l => l
         | Raise _ => progress_label g
         end;
       create_btn_enabled := true;
       dialogs := dialogs g |} in
  let run := create_video e img_paths output_path duration music true
               (initial existing) in
  match deliver (calls (snd run)) g with
  | Raise err => (finish (show_dialog g (ErrorRaised err)), run)
  | Ret g1 =>
      match fst run with
      | Ret true =>
          let g2 := set_progress g1 100 (LabelDone 100) in
          (finish (show_dialog g2 (InfoCreated output_path)), run)
      | Ret false => (finish (show_dialog g1 ErrorCreationFailed), run)
      | Raise err => (finish (show_dialog g1 (ErrorRaised err)), run)
      end
  end.

Definition MAX_IMAGES : nat := 100.

(** What [start_creation] decides from the values of the form: an error
    dialog, or the arguments of the worker thread (and whether the
    too-many-images warning was shown).  [duration] is the number held by
    the duration field, a [DoubleVar]. *)
Inductive start_decision : Type :=
| Refuse (d : dialog)
| Start (img_paths : list string) (output_path : string) (duration : Q)
    (music : option string) (text : string) (warned : bool).

Definition start_creation (img_paths : list string) (output_path : string)
    (duration : Q) (music_var text : string) : start_decision :=
  let music := if String.eqb music_var EmptyString then None
               else Some music_var in
  match img_paths with
  | [] => Refuse ErrorNoImages
  | _ :: _ =>
      if String.eqb output_path EmptyString then Refuse ErrorNoOutput
      else if Qle_bool duration 0 then Refuse ErrorBadDuration
      else if (MAX_IMAGES <? length img_paths)%nat
      then Start (firstn MAX_IMAGES img_paths) output_path duration music
             text true
      else Start img_paths output_path duration music text false
  end.

(** ** The list of images *)

(** [add_files], given the files chosen in the dialog and the items of the
    list box: a file is appended unless the list box already holds it. *)
Definition add_files (files listbox : list string) : list string :=
  fold_left (fun items file =>
               if decide (file ∈ items) then items
               else (items ++ [file])%list)
    files listbox.

(** [remove_selected], given [curselection()] and the items of the list
    box: the selected positions are deleted from the last to the first.
    Deleting a position the list box does not have changes nothing. *)
Definition remove_selected (selected : list nat) (listbox : list string)
  : list string :=
  fold_left (fun items i => delete i items) (rev selected) listbox.

(** * Vocabulary of the further properties *)

(** The caption built from complete metadata. *)
Definition exif_caption (make fnumber shutter iso : string) : string :=
  make ++ " f/" ++ fnumber ++ " " ++ shutter ++ "s ISO" ++ iso.


(** The characters of a decimal numeral. *)
Definition numeral (u : Decimal.uint) : list ascii :=
  list_ascii_of_string (NilEmpty.string_of_uint u).

(** A character that is a decimal digit. *)
Definition is_digit (c : ascii) : Prop := exists d, Py.digit c = Some d.


(** The calls [create_video] can make on a list of [n] images: the
    "processing" call of an image position below [n], the call that opens
    the muxing stage, or the call made for a line of mux output. *)
Definition well_formed_call (n : nat) (c : progress_call) : Prop :=
  (exists k, (k < n)%nat /\ c = processing_call k n)
  \/ c = compiling_start
  \/ exists running, c = compiling_call running.

(** The muxing tool cannot be started, or exits with a non-zero code. *)
Definition mux_failed (m : mux_outcome) : Prop :=
  m = MuxCannotStart \/ exists polls rc, m = MuxRan polls rc /\ rc <> 0.

(** The muxing tool is not installed. *)
Definition no_mux_env : env := sample_env (fun _ => good_image) MuxCannotStart.

(** Two runs agree on everything but the printed lines. *)
Definition same_but_log (r1 r2 : result bool * state) : Prop :=
  fst r1 = fst r2
  /\ dirs (snd r1) = dirs (snd r2)
  /\ calls (snd r1) = calls (snd r2)
  /\ launched (snd r1) = launched (snd r2).

(** Images compose, the mux succeeds, the audio probe times out. *)
Definition deaf_env : env := all_good.

(** The items of [l], numbered from [k], whose number is not selected. *)
Fixpoint unselected (k : nat) (selected : list nat) (l : list string)
  : list string :=
  match l with
  | [] => []
  | x :: l' =>
      ((if decide (k ∈ selected) then [] else [x])
       ++ unselected (S k) selected l')%list
  end.

(** The window when the worker thread starts: [start_creation] has reset
    the bar, set the starting text and disabled the button. *)
Definition started_gui : gui :=
  {| progress_var := 0; progress_label := LabelStarting;
     create_btn_enabled := false; dialogs := [] |}.

(** [selected] is strictly increasing, as [curselection()] is. *)
Fixpoint increasing (selected : list nat) : Prop :=
  match selected with
  | [] => True
  | i :: rest => Forall (lt i) rest /\ increasing rest
  end.

(** The position the callback of [run_creation] computes for a call,
    before the caps [min(70.0, _)] and [min(100.0, _)]. *)
Definition uncapped_position (c : progress_call) : Q :=
  if String.eqb (phase c) "processing"
  then num_value (current c) / num_value (total c) * 70
  else 70 + num_value (current c) / 100 * 30.
(** * Properties *)

(** ** Frame geometry *)

Lemma int_of_float_ratio (a : Z) (n d : positive) :
  Py.int_of_float (inject_Z a * (Zpos n # d)) = (a * Zpos n) ÷ Zpos d.
Proof. reflexivity. Qed.

Lemma int_of_float_div16 (a : Z) :
  Py.int_of_float (inject_Z a / 16) = a ÷ 16.
Proof.
  unfold Py.int_of_float, Qdiv, Qmult, Qinv, inject_Z; simpl.
  now rewrite Z.mul_1_r.
Qed.

Lemma quot_scaled (a b c : Z) : b <> 0 -> c <> 0 -> (a * c) ÷ (b * c) = a ÷ b.
Proof. intros Hb Hc. now apply Z.quot_mul_cancel_r. Qed.

Ltac geometry_to_quot :=
  unfold frame_geometry;
  rewrite int_of_float_div16, !int_of_float_ratio;
  change (Z.pos 10) with (5 * 2); change (Z.pos 1000) with (40 * 25);
  change (Z.pos 2) with 2; change (Z.pos 25) with 25;
  rewrite !quot_scaled by discriminate.



(** For the widths a probe reports (non-negative), truncation is the
    floor. *)
Corollary frame_geometry_floor (w : Z) :
  0 <= w ->
  let bg := w * 9 / 16 in
  let info := bg / 5 in
  frame_geometry w =
    {| bg_width := w; bg_height := bg; info_height := info;
       total_height := bg + info;
       font_size := Z.max 40 ((bg + info) / 40) |}.
Proof.
  intros Hw. cbv zeta. geometry_to_quot.
  assert (H1 : 0 <= w * 9 / 16) by (apply Z.div_pos; lia).
  assert (H2 : 0 <= w * 9 / 16 / 5) by (apply Z.div_pos; lia).
  rewrite !Z.quot_div_nonneg by lia.
  reflexivity.
Qed.

Example frame_geometry_1920 :
  frame_geometry 1920 =
    {| bg_width := 1920; bg_height := 1080; info_height := 216;
       total_height := 1296; font_size := 40 |}.
Proof. reflexivity. Qed.

(** ** Metadata extractor *)

Lemma split_aux_length (sep : ascii) (l cur : list ascii) :
  (1 <= length (Py.split_aux sep cur l))%nat.
Proof.
  revert cur. induction l as [|c l IH]; intros cur; simpl; [lia|].
  destruct (Ascii.eqb c sep); simpl; [lia | apply IH].
Qed.

Lemma split_aux_second (sep : ascii) (l cur : list ascii) :
  In sep l -> (2 <= length (Py.split_aux sep cur l))%nat.
Proof.
  revert cur. induction l as [|c l IH]; intros cur Hin; [destruct Hin|].
  simpl. destruct (Ascii.eqb_spec c sep) as [->|Hne]; simpl.
  - pose proof (split_aux_length sep l []). lia.
  - destruct Hin as [->|Hin]; [congruence|]. now apply IH.
Qed.

Lemma field_present (line : string) :
  has_colon line ->
  Py.split ":" (Py.remove_spaces line) !! 1%nat = Some (field_value line).
Proof.
  intros Hc. unfold field_value.
  assert (Hlen : (2 <= length (Py.split ":" (Py.remove_spaces line)))%nat).
  { unfold Py.split, Py.remove_spaces.
    rewrite list_ascii_of_string_of_list_ascii.
    apply split_aux_second, filter_In. split; [exact Hc | reflexivity]. }
  destruct (Py.split ":" (Py.remove_spaces line)) as [|a [|b l]];
    simpl in *; try lia. reflexivity.
Qed.

Lemma exif_field_expected (lines : list string) (k : nat) :
  (forall line, lines !! k = Some line -> has_colon line) ->
  exif_field lines k = Ret (expected_field lines k).
Proof.
  intros Hc. unfold exif_field, expected_field.
  destruct (Nat.ltb_spec k (length lines)) as [Hlt|Hge].
  - destruct (lookup_lt_is_Some_2 lines k Hlt) as [line Hline].
    rewrite Hline. rewrite (nth_lookup_Some _ _ EmptyString _ Hline).
    now rewrite (field_present line (Hc line Hline)).
  - now rewrite (lookup_ge_None_2 lines k Hge).
Qed.


(** Two further departures, both outside the amended statement: empty
    output raises, and a tool that cannot be started yields a record
    without the keys make and fnumber. *)
Example get_exif_data_empty_output :
  get_exif_data (Completed 0 EmptyString) = Raise IndexError.
Proof. reflexivity. Qed.

Example get_exif_data_cannot_start_keys :
  (d <- get_exif_data CannotStart ;;
   Ret (d !! "make", d !! "iso", d !! "shutter", d !! "fnumber"))
  = Ret (None, Some "N/A", Some "N/A", None).
Proof. vm_compute. reflexivity. Qed.



(** ** Frame compositor *)


(** ** The image loop *)

Lemma removed_absent (d : string) (X : gset string) : d ∉ X ∖ {[d]}.
Proof.
  intros [_ H]%elem_of_difference. apply H. now apply elem_of_singleton.
Qed.

Ltac run_step :=
  unfold mbind, print, notify, call_progress, make_dir, rmtree, launch,
    ret, raise, lift in *;
  simpl in *.

Lemma process_images_outcomes (e : env) (temp_dir : string) (cb : bool)
    (total_images : nat) (image_paths : list string) :
  forall (i : nat) (bs : list bool) (processed : list string) (st : state),
    outcomes e temp_dir i image_paths bs ->
    exists st',
      process_images e temp_dir cb total_images i image_paths processed st
      = (Ret (processed ++ kept_frames temp_dir i bs)%list, st')
      /\ dirs st' = dirs st
      /\ launched st' = launched st
      /\ calls st'
         = (calls st
            ++ if cb then processing_calls total_images i bs else [])%list.
Proof.
  induction image_paths as [|img_path rest IH];
    intros i [|b bs] processed st Hout; try destruct Hout.
  - exists st. destruct cb; simpl; rewrite ?app_nil_r; auto.
  - simpl. unfold mbind at 1. unfold lift. fold (attempt e temp_dir i img_path).
    rewrite H.
    destruct b.
    + destruct (IH (S i) bs
                  (processed ++ [path_join temp_dir (frame_name i)])%list
                  (snd (notify cb (Int (Z.of_nat i + 1))
                          (Int (Z.of_nat total_images)) "processing"
                          (snd (print (MsgProcessed (i + 1) total_images
                                         img_path) st)))) H0)
        as (st' & Hrun & Hd & Hl & Hc).
      exists st'. split; [|split; [|split]].
      * destruct cb; run_step; rewrite Hrun; now rewrite <- app_assoc.
      * rewrite Hd. now destruct cb.
      * rewrite Hl. now destruct cb.
      * rewrite Hc. destruct cb; simpl; [|reflexivity].
        now rewrite <- app_assoc.
    + destruct (IH (S i) bs processed
                  (snd (print (MsgSkipping img_path) st)) H0)
        as (st' & Hrun & Hd & Hl & Hc).
      exists st'. run_step. rewrite Hrun. auto.
Qed.

(** C6, as stated, fails: after an attempt that fails the callback is not
    invoked.  With one image whose composition exits non-zero, no
    "processing" call is made, where the claim wants the call
    (1, 1, "processing"). *)
Lemma no_progress_call_after_failure :
  ~ one_call_per_attempt (sample_env (fun _ => bad_image) quick_mux)
      "/tmp/video_frames_a1" ["a.jpg"] (initial ∅).
Proof.
  intros H. specialize (H [false]).
  assert (Hout : outcomes (sample_env (fun _ => bad_image) quick_mux)
                   "/tmp/video_frames_a1" 0 ["a.jpg"] [false])
    by (split; [reflexivity|exact I]).
  specialize (H Hout). vm_compute in H. discriminate H.
Qed.

(** C6 (amended): during the image-processing phase the callback, when
    supplied, is invoked exactly once after every composition attempt that
    succeeds, with (position of the image counted from 1, total image
    count, "processing"), and is not invoked after an attempt that
    fails. *)
Theorem progress_call_per_success (e : env) (temp_dir : string)
    (image_paths : list string) (bs : list bool) (st : state) :
  outcomes e temp_dir 0 image_paths bs ->
  calls (snd (process_images e temp_dir true (length image_paths) 0
                image_paths [] st))
  = (calls st ++ processing_calls (length image_paths) 0 bs)%list.
Proof.
  intros Hout.
  destruct (process_images_outcomes e temp_dir true (length image_paths)
              image_paths 0 bs [] st Hout) as (st' & Hrun & _ & _ & Hc).
  now rewrite Hrun.
Qed.

Lemma progress_call_per_success_witness :
  calls (snd (process_images
                (sample_env (fun i => if Nat.eqb i 1 then bad_image
                                      else good_image) quick_mux)
                "/tmp/video_frames_a1" true 3 0
                ["a.jpg"; "b.jpg"; "c.jpg"] [] (initial ∅)))
  = [processing_call 0 3; processing_call 2 3].
Proof.
  apply (progress_call_per_success
           (sample_env (fun i => if Nat.eqb i 1 then bad_image
                                 else good_image) quick_mux)
           "/tmp/video_frames_a1" ["a.jpg"; "b.jpg"; "c.jpg"]
           [true; false; true] (initial ∅)).
  repeat split; reflexivity.
Defined.

(** ** Runs without a single frame *)





(** ** The scratch directory *)

(** C3, as stated, fails: an exception that escapes before the muxing
    stage leaves the scratch directory behind.  Here the probing tool is
    not installed, [process_image] raises FileNotFoundError, and the
    directory made at the start of the run still exists. *)
Lemma scratch_left_on_exception :
  ~ scratch_removed (sample_env (fun _ => unprobed_image) quick_mux)
      ["a.jpg"] "out.mp4" 5 None true (initial ∅).
Proof.
  unfold scratch_removed.
  assert (Hrun :
    create_video (sample_env (fun _ => unprobed_image) quick_mux)
      ["a.jpg"] "out.mp4" 5 None true (initial ∅)
    = (Raise FileNotFoundError,
       {| dirs := {["/tmp/video_frames_a1"]} ∪ ∅; calls := [];
          printed := [MsgProcessing 1]; launched := [] |}))
    by reflexivity.
  rewrite Hrun. simpl. intros Habsent. apply Habsent.
  apply elem_of_union. left. now apply elem_of_singleton.
Qed.

(** C3 (amended): every run of [create_video] that returns, with True or
    with False, has removed the scratch directory by the time it
    returns. *)
Theorem scratch_removed_on_return (e : env) (image_paths : list string)
    (output_video : string) (duration : Q) (music : option string)
    (progress_callback : bool) (st : state) (b : bool) :
  fst (create_video e image_paths output_video duration music
         progress_callback st) = Ret b ->
  mkdtemp e ∉ dirs (snd (create_video e image_paths output_video duration
                           music progress_callback st)).
Proof.
  unfold create_video, run_mux, condition_audio. run_step.
  repeat match goal with
         | |- context [match ?x with _ => _ end] =>
             destruct x eqn:?; simpl in *
         end;
    try discriminate; intros _;
    try match goal with
        | H : (match ?p with _ => _ end) _ = (_, ?s) |- _ ∉ dirs ?s =>
            destruct p; [destruct progress_callback|];
            simplify_eq; simpl
        end;
    apply removed_absent.
Qed.

Lemma scratch_removed_on_return_witness :
  "/tmp/video_frames_a1"
  ∉ dirs (snd (create_video (sample_env (fun _ => bad_image) quick_mux)
                 ["a.jpg"] "out.mp4" 5 None true (initial ∅))).
Proof.
  apply (scratch_removed_on_return
           (sample_env (fun _ => bad_image) quick_mux)
           ["a.jpg"] "out.mp4" 5 None true (initial ∅) false).
  reflexivity.
Defined.

(** ** Audio conditioner *)






(** ** Failed compositions are skipped *)



(** ** The muxing stage *)

Lemma read_lines_with_callback (polls : list bool) :
  forall (p : option Q) (st : state),
    exists st',
      read_lines true polls p st = (Ret (progress_after polls p), st')
      /\ dirs st' = dirs st
      /\ printed st' = printed st
      /\ launched st' = launched st
      /\ calls st' = (calls st ++ map compiling_call polls)%list.
Proof.
  induction polls as [|running rest IH]; intros p st.
  - exists st. simpl. now rewrite app_nil_r.
  - simpl. run_step.
    match goal with
    | |- context [read_lines true rest ?q ?s] =>
        destruct (IH q s) as (st' & Hrun & Hd & Hp & Hl & Hc)
    end.
    exists st'. rewrite Hrun. simpl in *.
    rewrite Hc, <- app_assoc. auto.
Qed.

Lemma read_lines_without_callback (polls : list bool) (p : option Q)
    (st : state) :
  read_lines false polls p st = (Ret p, st).
Proof. induction polls as [|running rest IH]; simpl; auto. Qed.

Lemma kept_frames_length (temp_dir : string) (bs : list bool) :
  forall i, length (kept_frames temp_dir i bs) = successes bs.
Proof.
  unfold successes.
  induction bs as [|[|] bs IH]; intros i; simpl; auto.
Qed.

Lemma condition_audio_frame (e : env) (music : option string)
    (total_duration : Q) (temp_dir : string) (st : state) :
  let run := condition_audio e music total_duration temp_dir st in
  dirs (snd run) = dirs st /\ calls (snd run) = calls st
  /\ launched (snd run) = launched st.
Proof.
  unfold condition_audio. destruct music as [m|]; [|now auto].
  destruct (String.eqb m EmptyString); [now auto|].
  run_step. destruct (process_audio_for_video _ _ _ _) as [[fa|]|err];
    simpl; auto.
Qed.

(** Without a callback no run returns True: the success path ends in the
    unguarded final call, where [progress] was never assigned. *)
Lemma no_callback_never_true (e : env) (image_paths : list string)
    (output_video : string) (duration : Q) (music : option string)
    (st : state) :
  fst (create_video e image_paths output_video duration music false st)
  <> Ret true.
Proof.
  unfold create_video, run_mux. run_step.
  repeat match goal with
         | |- context [read_lines false ?l ?p ?s] =>
             rewrite (read_lines_without_callback l p s)
         | |- context [match ?x with _ => _ end] =>
             destruct x eqn:?; simpl in *
         end;
    simplify_eq; simpl in *; try discriminate.
  match goal with
  | H : (match ?p with _ => _ end) _ = (Ret _, _) |- _ =>
      destruct p; discriminate H
  end.
Qed.

Lemma progress_after_some (polls : list bool) (p : option Q) :
  polls <> [] -> exists q, progress_after polls p = Some q.
Proof.
  unfold progress_after. revert p.
  induction polls as [|r [|r' rest] IH]; intros p Hne; [easy|simpl; eauto|].
  change (exists q, fold_left (fun _ running => Some (mux_progress running))
                      (r' :: rest) (Some (mux_progress r)) = Some q).
  now apply IH.
Qed.

(** What a successful run with a callback does: M frames out of N images,
    a mux that prints at least one line and exits with code 0. *)
Lemma create_video_success (e : env) (image_paths : list string)
    (output_video : string) (duration : Q) (music : option string)
    (bs polls : list bool) (st : state) :
  outcomes e (mkdtemp e) 0 image_paths bs ->
  successes bs <> 0%nat ->
  (forall st0, exists final_audio,
     fst (condition_audio e music
            (inject_Z (Z.of_nat (successes bs)) * duration) (mkdtemp e) st0)
     = Ret final_audio) ->
  ~ (duration == 0)%Q ->
  (forall cmd, mux e cmd = MuxRan polls 0) ->
  polls <> [] ->
  exists st' p,
    create_video e image_paths output_video duration music true st
    = (Ret true, st')
    /\ In (MsgVideoDuration (inject_Z (Z.of_nat (successes bs)) * duration))
         (printed st')
    /\ In (MsgNumberOfImages (successes bs)) (printed st')
    /\ (mkdtemp e ∉ dirs st')
    /\ progress_after polls None = Some p
    /\ calls st'
       = (calls st ++ processing_calls (length image_paths) 0 bs
          ++ compiling_start :: map compiling_call polls
          ++ [{| current := Float p; total := Int 100;
                 phase := "compiling" |}])%list.
Proof.
  intros Hout Hpos Haudio Hdur Hmux Hpolls.
  destruct (progress_after_some polls None Hpolls) as [p Hp].
  unfold create_video, run_mux. run_step.
  match goal with
  | |- context [process_images ?e' ?t ?c ?n ?i ?l ?a ?s] =>
      destruct (process_images_outcomes e' t c n l i _ a s Hout)
        as (st1 & Hrun & Hd1 & Hl1 & Hc1)
  end.
  rewrite Hrun. simpl.
  pose proof (kept_frames_length (mkdtemp e) bs 0) as Hlen.
  destruct (kept_frames (mkdtemp e) 0 bs) as [|frame frames] eqn:Hframes;
    [simpl in Hlen; congruence|].
  unfold total_duration_of. rewrite Hlen.
  destruct (Haudio st1) as [final_audio Hfa].
  pose proof (condition_audio_frame e music
                (inject_Z (Z.of_nat (successes bs)) * duration)
                (mkdtemp e) st1) as (Hd2 & Hc2 & Hl2).
  destruct (condition_audio e music _ (mkdtemp e) st1) as [ra st2].
  simpl in Hfa, Hd2, Hc2, Hl2. subst ra.
  assert (Hq : Qeq_bool duration 0 = false).
  { destruct (Qeq_bool duration 0) eqn:Hq; [|reflexivity].
    apply Qeq_bool_iff in Hq. contradiction. }
  rewrite Hq, Hmux. simpl.
  match goal with
  | |- context [read_lines true polls None ?s] =>
      destruct (read_lines_with_callback polls None s)
        as (st3 & Hread & Hd3 & Hp3 & Hl3 & Hc3)
  end.
  rewrite Hread, Hp. simpl.
  eexists _, p. split; [reflexivity|]. simpl.
  split; [|split; [|split; [|split]]].
  - apply in_or_app. left. apply in_or_app. right. now left.
  - apply in_or_app. right. now left.
  - apply removed_absent.
  - reflexivity.
  - rewrite Hc3. simpl. rewrite Hc2, Hc1. simpl.
    rewrite <- !app_assoc. reflexivity.
Qed.

(** ** The final progress call *)

(** What a run does whose muxing succeeds when no callback is supplied. *)
Lemma create_video_unguarded_call (e : env) (image_paths : list string)
    (output_video : string) (duration : Q) (music : option string)
    (bs polls : list bool) (st : state) :
  outcomes e (mkdtemp e) 0 image_paths bs ->
  successes bs <> 0%nat ->
  (forall st0, exists final_audio,
     fst (condition_audio e music
            (inject_Z (Z.of_nat (successes bs)) * duration) (mkdtemp e) st0)
     = Ret final_audio) ->
  ~ (duration == 0)%Q ->
  (forall cmd, mux e cmd = MuxRan polls 0) ->
  exists st',
    create_video e image_paths output_video duration music false st
    = (Raise UnboundLocalError, st')
    /\ In (MsgVideoDuration (inject_Z (Z.of_nat (successes bs)) * duration))
         (printed st')
    /\ In (MsgNumberOfImages (successes bs)) (printed st')
    /\ (mkdtemp e ∉ dirs st').
Proof.
  intros Hout Hpos Haudio Hdur Hmux.
  unfold create_video, run_mux. run_step.
  match goal with
  | |- context [process_images ?e' ?t ?c ?n ?i ?l ?a ?s] =>
      destruct (process_images_outcomes e' t c n l i _ a s Hout)
        as (st1 & Hrun & _)
  end.
  rewrite Hrun. simpl.
  pose proof (kept_frames_length (mkdtemp e) bs 0) as Hlen.
  destruct (kept_frames (mkdtemp e) 0 bs) as [|frame frames] eqn:Hframes;
    [simpl in Hlen; congruence|].
  unfold total_duration_of. rewrite Hlen.
  destruct (Haudio st1) as [final_audio Hfa].
  destruct (condition_audio e music _ (mkdtemp e) st1) as [ra st2].
  simpl in Hfa. subst ra.
  assert (Hq : Qeq_bool duration 0 = false).
  { destruct (Qeq_bool duration 0) eqn:Hq; [|reflexivity].
    apply Qeq_bool_iff in Hq. contradiction. }
  rewrite Hq, Hmux. simpl.
  rewrite read_lines_without_callback. simpl.
  eexists. split; [reflexivity|]. simpl. split; [|split].
  - apply in_or_app. left. apply in_or_app. right. now left.
  - apply in_or_app. right. now left.
  - apply removed_absent.
Qed.

(** C1 (defect of the code).  When M >= 1 of the N images compose and the
    mux exits with code 0, the total duration is computed as M * d and
    printed with the frame count M; but with no callback supplied
    [create_video] then raises UnboundLocalError at its last statement
    instead of returning True. *)
Theorem partial_success_raises_without_callback (e : env)
    (image_paths : list string) (output_video : string) (duration : Q)
    (music : option string) (bs polls : list bool) (st : state) :
  outcomes e (mkdtemp e) 0 image_paths bs ->
  successes bs <> 0%nat ->
  (forall st0, exists final_audio,
     fst (condition_audio e music
            (inject_Z (Z.of_nat (successes bs)) * duration) (mkdtemp e) st0)
     = Ret final_audio) ->
  ~ (duration == 0)%Q ->
  (forall cmd, mux e cmd = MuxRan polls 0) ->
  let run := create_video e image_paths output_video duration music false
               st in
  fst run = Raise UnboundLocalError
  /\ In (MsgVideoDuration (inject_Z (Z.of_nat (successes bs)) * duration))
       (printed (snd run))
  /\ In (MsgNumberOfImages (successes bs)) (printed (snd run)).
Proof.
  intros Hout Hpos Haudio Hdur Hmux. cbv zeta.
  destruct (create_video_unguarded_call e image_paths output_video duration
              music bs polls st Hout Hpos Haudio Hdur Hmux)
    as (st' & -> & Hduration & Hcount & _).
  simpl. auto.
Qed.

Lemma partial_success_raises_without_callback_witness :
  let run := create_video second_only ["a.jpg"; "b.jpg"] "out.mp4" 5 None
               false (initial ∅) in
  fst run = Raise UnboundLocalError
  /\ In (MsgVideoDuration (inject_Z 1 * 5)) (printed (snd run))
  /\ In (MsgNumberOfImages 1) (printed (snd run)).
Proof.
  apply (partial_success_raises_without_callback second_only
           ["a.jpg"; "b.jpg"] "out.mp4" 5 None [false; true] [true]
           (initial ∅)).
  - repeat split; reflexivity.
  - discriminate.
  - intros st0. exists None. reflexivity.
  - intros H. discriminate H.
  - reflexivity.
Defined.

(** With a callback and a mux that prints, the same two images give True
    and the duration 1 * d. *)
Example partial_success_with_callback :
  let run := create_video second_only ["a.jpg"; "b.jpg"] "out.mp4" 5 None
               true (initial ∅) in
  fst run = Ret true
  /\ In (MsgVideoDuration (inject_Z 1 * 5)) (printed (snd run)).
Proof.
  cbv zeta. split; [reflexivity|].
  vm_compute; repeat (try (left; reflexivity); right).
Qed.

Lemma progress_after_value (polls : list bool) :
  forall p0 p,
    progress_after polls p0 = Some p ->
    p0 = Some p \/ exists running, p = mux_progress running.
Proof.
  unfold progress_after.
  induction polls as [|r rest IH]; intros p0 p Hp; simpl in Hp; [now left|].
  destruct (IH _ _ Hp) as [Heq|Hex]; [|now right].
  right. exists r. congruence.
Qed.

(** C9 (defect of the code).  In every successful run with a callback the
    call (0, 0, "compiling") opens the muxing stage, but the final call
    passes the stale local [progress]: 85 or 70 out of 100, never
    completion at 100. *)
Theorem final_progress_call_is_stale (e : env)
    (image_paths : list string) (output_video : string) (duration : Q)
    (music : option string) (bs polls : list bool) (st : state) :
  outcomes e (mkdtemp e) 0 image_paths bs ->
  successes bs <> 0%nat ->
  (forall st0, exists final_audio,
     fst (condition_audio e music
            (inject_Z (Z.of_nat (successes bs)) * duration) (mkdtemp e) st0)
     = Ret final_audio) ->
  ~ (duration == 0)%Q ->
  (forall cmd, mux e cmd = MuxRan polls 0) ->
  polls <> [] ->
  let run := create_video e image_paths output_video duration music true
               st in
  fst run = Ret true
  /\ In compiling_start (calls (snd run))
  /\ exists p,
       last (calls (snd run))
       = Some {| current := Float p; total := Int 100;
                 phase := "compiling" |}
       /\ ((p == 85)%Q \/ (p == 70)%Q) /\ ~ (p == 100)%Q.
Proof.
  intros Hout Hpos Haudio Hdur Hmux Hpolls. cbv zeta.
  destruct (create_video_success e image_paths output_video duration music
              bs polls st Hout Hpos Haudio Hdur Hmux Hpolls)
    as (st' & p & Hrun & _ & _ & _ & Hp & Hcalls).
  rewrite Hrun. simpl. split; [reflexivity|]. split.
  - rewrite Hcalls. apply in_or_app. right. apply in_or_app. right.
    now left.
  - exists p. split.
    + rewrite Hcalls, app_comm_cons, !app_assoc. apply last_snoc.
    + destruct (progress_after_value polls None p Hp) as [Hnone|[r ->]];
        [discriminate Hnone|].
      destruct r; split; try (now left); try (now right);
        intros H; vm_compute in H; discriminate H.
Qed.

Lemma final_progress_call_is_stale_witness :
  let run := create_video all_good ["a.jpg"] "out.mp4" 5 None true
               (initial ∅) in
  fst run = Ret true
  /\ In compiling_start (calls (snd run))
  /\ exists p,
       last (calls (snd run))
       = Some {| current := Float p; total := Int 100;
                 phase := "compiling" |}
       /\ ((p == 85)%Q \/ (p == 70)%Q) /\ ~ (p == 100)%Q.
Proof.
  apply (final_progress_call_is_stale all_good ["a.jpg"] "out.mp4" 5 None
           [true] [true] (initial ∅)).
  - split; [reflexivity|exact I].
  - discriminate.
  - intros st0. exists None. reflexivity.
  - intros H. discriminate H.
  - reflexivity.
  - discriminate.
Defined.

(** When the mux prints nothing, [progress] is unbound at the final call
    even though a callback is supplied. *)
Example final_progress_call_unbound :
  fst (create_video silent_mux_env ["a.jpg"] "out.mp4" 5 None true
         (initial ∅))
  = Raise UnboundLocalError.
Proof. reflexivity. Qed.

(** C10 (defect of the code).  With the callback omitted, every run whose
    muxing succeeds (at least one frame, an audio stage that returns, a
    non-zero duration, a mux that exits with code 0) raises
    UnboundLocalError at the final, unguarded callback statement instead
    of returning True. *)
Theorem success_raises_without_callback (e : env)
    (image_paths : list string) (output_video : string) (duration : Q)
    (music : option string) (bs polls : list bool) (st : state) :
  outcomes e (mkdtemp e) 0 image_paths bs ->
  successes bs <> 0%nat ->
  (forall st0, exists final_audio,
     fst (condition_audio e music
            (inject_Z (Z.of_nat (successes bs)) * duration) (mkdtemp e) st0)
     = Ret final_audio) ->
  ~ (duration == 0)%Q ->
  (forall cmd, mux e cmd = MuxRan polls 0) ->
  fst (create_video e image_paths output_video duration music false st)
  = Raise UnboundLocalError.
Proof.
  intros Hout Hpos Haudio Hdur Hmux.
  destruct (create_video_unguarded_call e image_paths output_video duration
              music bs polls st Hout Hpos Haudio Hdur Hmux)
    as (st' & -> & _).
  reflexivity.
Qed.

Lemma success_raises_without_callback_witness :
  fst (create_video all_good ["a.jpg"] "out.mp4" 5 None false (initial ∅))
  = Raise UnboundLocalError.
Proof.
  apply (success_raises_without_callback all_good ["a.jpg"] "out.mp4" 5
           None [true] [true] (initial ∅)).
  - split; [reflexivity|exact I].
  - discriminate.
  - intros st0. exists None. reflexivity.
  - intros H. discriminate H.
  - reflexivity.
Defined.

(** ** Binary64 arithmetic gives the same geometry *)

Lemma all_below_spec (f : Z -> bool) (n : nat) :
  all_below n f = true ->
  forall w, 0 <= w < Z.of_nat n -> f w = true.
Proof.
  induction n as [|k IH]; simpl; intros Hall w Hw; [lia|].
  apply andb_true_iff in Hall as [Hk Hrest].
  destruct (Z.eq_dec w (Z.of_nat k)) as [->|Hne]; [exact Hk|].
  apply IH; [exact Hrest | lia].
Qed.

Lemma frame_spec_eqb_eq (g h : frame_spec) :
  frame_spec_eqb g h = true -> g = h.
Proof.
  unfold frame_spec_eqb. destruct g, h; simpl.
  rewrite !andb_true_iff, !Z.eqb_eq. intros [[[[-> ->] ->] ->] ->].
  reflexivity.
Qed.

Lemma geometry_agrees_below_8192 :
  all_below (Z.to_nat 8192) geometry_agrees = true.
Proof. vm_compute. reflexivity. Qed.

(** For every width below 8192 the computation on binary64 floats yields
    exactly the sizes of [frame_geometry]: the idealisation of floats as
    rationals loses nothing there. *)
Lemma binary64_geometry (w : Z) :
  0 <= w < 8192 ->
  Binary64.frame_geometry w = Some (frame_geometry w).
Proof.
  intros Hw.
  pose proof (all_below_spec geometry_agrees (Z.to_nat 8192)
                geometry_agrees_below_8192 w) as Hagree.
  rewrite Z2Nat.id in Hagree by lia. specialize (Hagree Hw).
  unfold geometry_agrees in Hagree.
  destruct (Binary64.frame_geometry w) as [g|]; [|discriminate].
  now rewrite (frame_spec_eqb_eq _ _ Hagree).
Qed.

Example binary64_to_int_truncates :
  Binary64.to_int (-3.5)%float = Some (-3)
  /\ Binary64.to_int 567.5625%float = Some 567.
Proof. split; reflexivity. Qed.

Example binary64_geometry_1009 :
  Binary64.frame_geometry 1009
  = Some {| bg_width := 1009; bg_height := 567; info_height := 113;
            total_height := 680; font_size := 40 |}.
Proof. reflexivity. Qed.

(** * Further properties of the pipeline *)

(** ** Encoder capability probe *)

Lemma append_cons (c : ascii) (a b : string) :
  String c a ++ b = String c (a ++ b).
Proof. reflexivity. Qed.

Lemma append_empty (b : string) : EmptyString ++ b = b.
Proof. reflexivity. Qed.

Lemma prefix_app (a b : string) :
  String.prefix a b = true <-> exists post, b = a ++ post.
Proof.
  revert b. induction a as [|c a IH]; intros b; simpl.
  - split; [intros _; now exists b | now destruct b].
  - destruct b as [|c' b]; [split; [discriminate | now intros [post H]]|].
    simpl. destruct (Ascii.ascii_dec c c') as [->|Hne].
    + rewrite IH. split; intros [post H]; exists post;
        rewrite append_cons in *; congruence.
    + split; [discriminate|].
      intros [post H]. rewrite append_cons in H. congruence.
Qed.

Lemma contains_unfold (needle hay : string) :
  Py.contains needle hay
  = String.prefix needle hay
    || match hay with
       | EmptyString => false
       | String _ hay' => Py.contains needle hay'
       end.
Proof. destruct hay; reflexivity. Qed.

Lemma contains_app (needle hay : string) :
  Py.contains needle hay = true
  <-> exists pre post, hay = pre ++ needle ++ post.
Proof.
  induction hay as [|c hay IH];
    rewrite contains_unfold, orb_true_iff, prefix_app.
  - split.
    + intros [[post H]|H]; [|discriminate]. now exists EmptyString, post.
    + intros (pre & post & H). left.
      destruct pre; [now exists post | discriminate].
  - rewrite IH. split.
    + intros [[post H]|(pre & post & H)].
      * now exists EmptyString, post.
      * exists (String c pre), post. rewrite append_cons. now rewrite H.
    + intros (pre & post & H).
      destruct pre as [|c' pre];
        rewrite ?append_cons, ?append_empty in H.
      * left. now exists post.
      * right. exists pre, post. congruence.
Qed.

(** X1: [is_encoder_available] answers True exactly when the codec listing
    was obtained (whatever the exit code) and the encoder name occurs in
    it as a substring; a tool that cannot be started or that times out
    counts as "not available". *)
Theorem is_encoder_available_substring (codecs : run_outcome)
    (encoder_name : string) :
  is_encoder_available codecs encoder_name = true
  <-> exists rc pre post,
        codecs = Completed rc (pre ++ encoder_name ++ post).
Proof.
  destruct codecs as [rc out| |]; simpl.
  - rewrite contains_app. split.
    + intros (pre & post & ->). now exists rc, pre, post.
    + intros (rc' & pre & post & H). exists pre, post. congruence.
  - split; [discriminate | now intros (rc & pre & post & H)].
  - split; [discriminate | now intros (rc & pre & post & H)].
Qed.

Lemma is_encoder_available_substring_witness :
  is_encoder_available (codecs all_good) "libx264" = true.
Proof.
  apply is_encoder_available_substring.
  exists 0, "DEV.LS h264 (encoders: ", " )". reflexivity.
Defined.

(** ** Metadata extractor: when it raises *)

Lemma split_aux_single (sep : ascii) (l cur : list ascii) :
  ~ In sep l -> length (Py.split_aux sep cur l) = 1%nat.
Proof.
  revert cur. induction l as [|c l IH]; intros cur Hnot; [reflexivity|].
  simpl. destruct (Ascii.eqb_spec c sep) as [->|Hne].
  - exfalso. apply Hnot. now left.
  - apply IH. intros Hin. apply Hnot. now right.
Qed.

Lemma field_absent (line : string) :
  ~ has_colon line ->
  Py.split ":" (Py.remove_spaces line) !! 1%nat = None.
Proof.
  intros Hc. apply lookup_ge_None_2.
  unfold Py.split, Py.remove_spaces.
  rewrite list_ascii_of_string_of_list_ascii, split_aux_single; [lia|].
  intros Hin. apply filter_In in Hin. apply Hc, Hin.
Qed.

Lemma has_colon_dec (line : string) : {has_colon line} + {~ has_colon line}.
Proof. apply in_dec, Ascii.ascii_dec. Qed.

Lemma exif_field_cases (lines : list string) (k : nat) :
  (exists line, lines !! k = Some line /\ ~ has_colon line
                /\ exif_field lines k = Raise IndexError)
  \/ ((forall line, lines !! k = Some line -> has_colon line)
      /\ exif_field lines k = Ret (expected_field lines k)).
Proof.
  destruct (lines !! k) as [line|] eqn:Hline.
  - destruct (has_colon_dec line) as [Hc|Hc].
    + right. split; [congruence|].
      apply exif_field_expected. congruence.
    + left. exists line. split; [reflexivity|]. split; [exact Hc|].
      unfold exif_field.
      assert (Hlt : (k <? length lines)%nat = true).
      { apply Nat.ltb_lt. eapply lookup_lt_Some. exact Hline. }
      rewrite Hlt. cbv zeta. rewrite (nth_lookup_Some _ _ EmptyString _ Hline).
      now rewrite (field_absent line Hc).
  - right. split; [discriminate|].
    apply exif_field_expected. congruence.
Qed.

(** X2: When the metadata tool runs, [get_exif_data] raises IndexError exactly
    when one of the first four lines of the stripped output is present
    and has no colon, and it raises nothing else: in every other case it
    returns a record. *)
Theorem get_exif_data_raises_iff (rc : Z) (stdout : string) :
  (get_exif_data (Completed rc stdout) = Raise IndexError
   <-> exists k line, (k < 4)%nat
         /\ output_lines stdout !! k = Some line /\ ~ has_colon line)
  /\ ((exists d, get_exif_data (Completed rc stdout) = Ret d)
      \/ get_exif_data (Completed rc stdout) = Raise IndexError).
Proof.
  unfold get_exif_data. cbv zeta.
  destruct (exif_field_cases (output_lines stdout) 0)
    as [(l0 & H0 & N0 & E0)|[C0 E0]]; rewrite E0; simpl;
    [split; [split; [intros _; exists 0%nat, l0; repeat split; trivial; lia
                     |reflexivity]|now right]|].
  destruct (exif_field_cases (output_lines stdout) 1)
    as [(l1 & H1 & N1 & E1)|[C1 E1]]; rewrite E1; simpl;
    [split; [split; [intros _; exists 1%nat, l1; repeat split; trivial; lia
                     |reflexivity]|now right]|].
  destruct (exif_field_cases (output_lines stdout) 2)
    as [(l2 & H2 & N2 & E2)|[C2 E2]]; rewrite E2; simpl;
    [split; [split; [intros _; exists 2%nat, l2; repeat split; trivial; lia
                     |reflexivity]|now right]|].
  destruct (exif_field_cases (output_lines stdout) 3)
    as [(l3 & H3 & N3 & E3)|[C3 E3]]; rewrite E3; simpl;
    [split; [split; [intros _; exists 3%nat, l3; repeat split; trivial; lia
                     |reflexivity]|now right]|].
  split; [|left; eauto].
  split; [discriminate|].
  intros (k & line & Hk & Hline & Hno). exfalso. apply Hno.
  destruct k as [|[|[|[|k]]]]; [eauto..|lia].
Qed.

Lemma get_exif_data_raises_iff_witness :
  get_exif_data (Completed 0 "Canon EOS R5") = Raise IndexError.
Proof.
  apply (proj1 (get_exif_data_raises_iff 0 "Canon EOS R5")).
  exists 0%nat, "Canon EOS R5".
  split; [lia|]. split; [reflexivity|].
  unfold has_colon. simpl. intuition discriminate.
Defined.

(** ** The generated caption *)

Lemma get_exif_data_record (tool : run_outcome) (d : gmap string string) :
  get_exif_data tool = Ret d ->
  (d !! "iso" = Some "N/A" /\ d !! "shutter" = Some "N/A"
   /\ d !! "make" = None /\ d !! "fnumber" = None)
  \/ exists make iso shutter fnumber,
       d !! "make" = Some make /\ d !! "iso" = Some iso
       /\ d !! "shutter" = Some shutter /\ d !! "fnumber" = Some fnumber.
Proof.
  destruct tool as [rc out| |]; simpl; [|discriminate|].
  - destruct (exif_field _ 0) as [make|]; [|discriminate].
    destruct (exif_field _ 1) as [iso|]; [|discriminate].
    destruct (exif_field _ 2) as [shutter|]; [|discriminate].
    destruct (exif_field _ 3) as [fnumber|]; [|discriminate].
    simpl. intros [= <-]. right. exists make, iso, shutter, fnumber.
    repeat split; simplify_map_eq; reflexivity.
  - intros [= <-]. left. repeat split; simplify_map_eq; reflexivity.
Qed.

Lemma auto_caption_error (w : image_world) (input_path : string) (e : exn) :
  auto_caption w input_path = Raise e ->
  get_exif_data (exiftool w input_path) = Raise e.
Proof.
  unfold auto_caption.
  destruct (get_exif_data (exiftool w input_path)) as [d|err] eqn:Hd;
    simpl; [|congruence].
  destruct (get_exif_data_record _ _ Hd)
    as [(Hi & Hs & Hm & Hf)|(make & iso & shutter & fnumber
                              & Hm & Hi & Hs & Hf)];
    unfold Py.getitem; rewrite Hi; simpl; [discriminate|].
  rewrite Hs, Hf, Hm. simpl.
  destruct (String.eqb iso "N/A"); [discriminate|].
  destruct (String.eqb shutter "N/A"); [discriminate|].
  destruct (String.eqb fnumber "N/A"); discriminate.
Qed.

(** X3: The generated caption is all or nothing.  An error of [auto_caption]
    is always the error of the extraction itself: the lookups never raise
    KeyError, although the record returned when the tool is missing lacks
    two keys.  A caption is either the date-stamped text or the complete
    metadata text, and it is the date-stamped text whenever one of iso,
    shutter, fnumber is "N/A". *)
Theorem auto_caption_all_or_nothing (w : image_world) (input_path : string) :
  (forall e, auto_caption w input_path = Raise e ->
             get_exif_data (exiftool w input_path) = Raise e)
  /\ (forall d, get_exif_data (exiftool w input_path) = Ret d ->
        (d !! "iso" = Some "N/A" \/ d !! "shutter" = Some "N/A"
         \/ d !! "fnumber" = Some "N/A") ->
        auto_caption w input_path = Ret ("Processed " ++ today w))
  /\ (forall d, get_exif_data (exiftool w input_path) = Ret d ->
        d !! "iso" <> Some "N/A" -> d !! "shutter" <> Some "N/A" ->
        d !! "fnumber" <> Some "N/A" ->
        exists make iso shutter fnumber,
          d !! "make" = Some make /\ d !! "iso" = Some iso
          /\ d !! "shutter" = Some shutter /\ d !! "fnumber" = Some fnumber
          /\ auto_caption w input_path
             = Ret (exif_caption make fnumber shutter iso)).
Proof.
  unfold auto_caption.
  destruct (get_exif_data (exiftool w input_path)) as [d|err] eqn:Hd;
    simpl; [|split; [|split]; congruence].
  destruct (get_exif_data_record _ _ Hd)
    as [(Hi & Hs & Hm & Hf)|(make & iso & shutter & fnumber
                              & Hm & Hi & Hs & Hf)];
    unfold Py.getitem; rewrite Hi; simpl.
  - split; [discriminate|]. split; [intros d' [= <-] _; reflexivity|].
    intros d' [= <-] Hno. contradiction.
  - rewrite Hs, Hf, Hm. simpl.
    destruct (String.eqb_spec iso "N/A") as [->|Hiso].
    { split; [discriminate|]. split; [reflexivity|].
      intros d' [= <-] Hno. contradiction. }
    destruct (String.eqb_spec shutter "N/A") as [->|Hshutter].
    { split; [discriminate|]. split; [reflexivity|].
      intros d' [= <-] _ Hno. contradiction. }
    destruct (String.eqb_spec fnumber "N/A") as [->|Hfnumber].
    { split; [discriminate|]. split; [reflexivity|].
      intros d' [= <-] _ _ Hno. contradiction. }
    split; [discriminate|]. split.
    + intros d' [= <-] [H|[H|H]]; congruence.
    + intros d' [= <-] _ _ _. exists make, iso, shutter, fnumber. auto.
Qed.

Lemma auto_caption_all_or_nothing_witness :
  auto_caption good_image "a.jpg" = Ret "Processed 2025-01-01".
Proof.
  apply (proj1 (proj2 (auto_caption_all_or_nothing good_image "a.jpg"))
           (<["iso" := "N/A"]> (<["shutter" := "N/A"]> ∅))).
  - reflexivity.
  - left. reflexivity.
Defined.

(** ** Frame compositor: success and errors *)





(** ** Decimal numerals: [int(str(z)) == z] *)

Lemma digits_acc_pos (u : Decimal.uint) :
  forall acc : positive,
    Py.digits (Z.pos acc) true (numeral u)
    = Some (Z.pos (Pos.of_uint_acc u acc)).
Proof.
  unfold numeral.
  induction u as [|u IH|u IH|u IH|u IH|u IH|u IH|u IH|u IH|u IH|u IH];
    intros acc; [reflexivity|..]; cbn [NilEmpty.string_of_uint
      list_ascii_of_string Py.digits Pos.of_uint_acc];
    rewrite <- IH; f_equal;
    match goal with
    | |- context [Z.of_nat (nat_of_ascii ?c)] =>
        let v := eval vm_compute in (Z.of_nat (nat_of_ascii c)) in
        change (Z.of_nat (nat_of_ascii c)) with v
    end; lia.
Qed.

Lemma digits_acc_zero (u : Decimal.uint) :
  Py.digits 0 true (numeral u) = Some (Z.of_N (Pos.of_uint u)).
Proof.
  unfold numeral.
  induction u as [|u IH|u IH|u IH|u IH|u IH|u IH|u IH|u IH|u IH|u IH];
    [reflexivity|exact IH|..];
    cbn [NilEmpty.string_of_uint list_ascii_of_string Py.digits Pos.of_uint];
    apply (digits_acc_pos u).
Qed.

Lemma digits_first_flag (u : Decimal.uint) (acc : Z) :
  u <> Decimal.Nil ->
  Py.digits acc false (numeral u) = Py.digits acc true (numeral u).
Proof. destruct u; [congruence|reflexivity..]. Qed.

Lemma numeral_digits (u : Decimal.uint) : Forall is_digit (numeral u).
Proof.
  unfold numeral.
  induction u; cbn [NilEmpty.string_of_uint list_ascii_of_string];
    constructor; try assumption; eexists; reflexivity.
Qed.

Lemma digit_not_space (c : ascii) : is_digit c -> Py.isspace c = false.
Proof.
  intros [d Hd]. unfold Py.digit in Hd. unfold Py.isspace.
  destruct ((48 <=? nat_of_ascii c) && (nat_of_ascii c <=? 57))%nat eqn:Hr;
    [|discriminate].
  apply andb_true_iff in Hr as [H1%Nat.leb_le H2%Nat.leb_le].
  repeat match goal with
         | |- context [(?a <=? ?b)%nat] => destruct (Nat.leb_spec a b)
         | |- context [(?a =? ?b)%nat] => destruct (Nat.eqb_spec a b)
         end; simpl; try reflexivity; lia.
Qed.

Lemma lstrip_id (l : list ascii) :
  Forall (fun c => Py.isspace c = false) l -> Py.lstrip l = l.
Proof. intros [|c l' Hc _]; simpl; [reflexivity | now rewrite Hc]. Qed.

Lemma strip_id (s : string) :
  Forall (fun c => Py.isspace c = false) (list_ascii_of_string s) ->
  Py.strip s = s.
Proof.
  intros Hs. unfold Py.strip.
  rewrite (lstrip_id _ Hs), lstrip_id, rev_involutive;
    [apply string_of_list_ascii_of_string|].
  now apply List.Forall_rev.
Qed.

Lemma str_chars (z : Z) :
  exists sign u,
    u <> Decimal.Nil
    /\ list_ascii_of_string (Py.str z) = (sign ++ numeral u)%list
    /\ Z.of_N (Pos.of_uint u) = Z.abs z
    /\ (sign = [] /\ 0 <= z \/ sign = ["-"%char] /\ z < 0).
Proof.
  unfold Py.str, numeral. destruct z as [|p|p]; simpl.
  - exists [], (Decimal.D0 Decimal.Nil). repeat split; try discriminate.
    left; split; [reflexivity|lia].
  - exists [], (Pos.to_uint p).
    pose proof (DecimalPos.Unsigned.to_uint_nonnil p) as Hnn.
    split; [exact Hnn|]. split; [now destruct (Pos.to_uint p)|].
    split; [now rewrite DecimalPos.Unsigned.of_to|].
    left; split; [reflexivity|lia].
  - exists ["-"%char], (Pos.to_uint p).
    pose proof (DecimalPos.Unsigned.to_uint_nonnil p) as Hnn.
    split; [exact Hnn|]. split; [now destruct (Pos.to_uint p)|].
    split; [now rewrite DecimalPos.Unsigned.of_to|].
    right; split; [reflexivity|lia].
Qed.

Lemma int_of_digit_head (c : ascii) (l : list ascii) :
  is_digit c ->
  match c :: l with
  | "-"%char :: l' => Z.opp <$> Py.digits 0 false l'
  | "+"%char :: l' => Py.digits 0 false l'
  | l0 => Py.digits 0 false l0
  end = Py.digits 0 false (c :: l).
Proof.
  intros [d Hd].
  destruct c as [[] [] [] [] [] [] [] []]; try reflexivity;
    discriminate Hd.
Qed.

Lemma int_of_chars (s : string) (sign : list ascii) (u : Decimal.uint) :
  u <> Decimal.Nil ->
  list_ascii_of_string s = (sign ++ numeral u)%list ->
  sign = [] \/ sign = ["-"%char] ->
  Py.int s
  = Some (if decide (sign = []) then Z.of_N (Pos.of_uint u)
          else - Z.of_N (Pos.of_uint u)).
Proof.
  intros Hnn Hchars Hsign.
  assert (Hstrip : Py.strip s = s).
  { apply strip_id. rewrite Hchars. apply Forall_app. split.
    - destruct Hsign as [->| ->]; repeat constructor.
    - eapply Forall_impl; [apply numeral_digits|].
      intros c Hc. now apply digit_not_space. }
  unfold Py.int. rewrite Hstrip, Hchars.
  pose proof (numeral_digits u) as Hdigits.
  destruct Hsign as [->| ->].
  - change ([] ++ numeral u)%list with (numeral u).
    destruct (numeral u) as [|c l] eqn:Hu.
    { destruct u; [congruence|discriminate Hu..]. }
    rewrite int_of_digit_head by now inversion Hdigits.
    now rewrite <- Hu, digits_first_flag, digits_acc_zero.
  - change (["-"%char] ++ numeral u)%list with ("-"%char :: numeral u).
    cbv iota beta. now rewrite digits_first_flag, digits_acc_zero.
Qed.


(** ** Frame files *)

Lemma chars_app (a b : string) :
  list_ascii_of_string (a ++ b)
  = (list_ascii_of_string a ++ list_ascii_of_string b)%list.
Proof.
  induction a as [|c a IH]; [reflexivity|].
  rewrite append_cons. simpl. now rewrite IH.
Qed.

Lemma chars_inj (a b : string) :
  list_ascii_of_string a = list_ascii_of_string b -> a = b.
Proof.
  intros H. rewrite <- (string_of_list_ascii_of_string a),
              <- (string_of_list_ascii_of_string b). now rewrite H.
Qed.

Lemma append_inv_head (a b c : string) : a ++ b = a ++ c -> b = c.
Proof.
  intros H. apply chars_inj. apply (f_equal list_ascii_of_string) in H.
  rewrite !chars_app in H. now apply app_inv_head in H.
Qed.

Lemma append_inv_tail (a b c : string) : a ++ c = b ++ c -> a = b.
Proof.
  intros H. apply chars_inj. apply (f_equal list_ascii_of_string) in H.
  rewrite !chars_app in H. now apply app_inv_tail in H.
Qed.

Lemma append_assoc (a b c : string) : a ++ b ++ c = (a ++ b) ++ c.
Proof.
  induction a as [|x a IH]; [reflexivity|].
  rewrite !append_cons. now rewrite IH.
Qed.

Lemma zeros_chars (k : nat) :
  list_ascii_of_string (String.concat EmptyString (repeat "0" k))
  = repeat "0"%char k.
Proof.
  induction k as [|[|k] IH]; [reflexivity..|].
  change (repeat "0" (S (S k))) with ("0" :: repeat "0" (S k)).
  cbn [String.concat]. rewrite append_empty.
  change (repeat "0" (S k)) with ("0" :: repeat "0" k) at 1.
  cbv iota. rewrite chars_app, IH. reflexivity.
Qed.

Lemma numeral_padded (k : nat) (u : Decimal.uint) :
  (repeat "0"%char k ++ numeral u)%list
  = numeral (Nat.iter k Decimal.D0 u)
  /\ Pos.of_uint (Nat.iter k Decimal.D0 u) = Pos.of_uint u
  /\ (u <> Decimal.Nil -> Nat.iter k Decimal.D0 u <> Decimal.Nil).
Proof.
  induction k as [|k (IH1 & IH2 & IH3)]; [auto|].
  repeat split.
  - simpl. now rewrite IH1.
  - simpl. exact IH2.
  - discriminate.
Qed.

Lemma int_padded (k : nat) (z : Z) :
  0 <= z ->
  Py.int (String.concat EmptyString (repeat "0" k) ++ Py.str z) = Some z.
Proof.
  intros Hz.
  destruct (str_chars z) as (sign & u & Hnn & Hchars & Hval & Hsign).
  destruct Hsign as [[-> _]|[_ Hneg]]; [|lia].
  destruct (numeral_padded k u) as (Hpad & Hof & Hnil).
  rewrite (int_of_chars _ [] (Nat.iter k Decimal.D0 u)); auto.
  - simpl. rewrite Hof. f_equal. lia.
  - rewrite chars_app, zeros_chars, Hchars. exact Hpad.
Qed.

Lemma frame_name_inj (i j : nat) : frame_name i = frame_name j -> i = j.
Proof.
  unfold frame_name. cbv zeta. intros H.
  apply append_inv_head in H.
  rewrite !append_assoc in H.
  apply append_inv_tail in H.
  apply (f_equal Py.int) in H.
  rewrite !int_padded in H by lia.
  injection H as H. lia.
Qed.

Lemma frame_name_relative (i : nat) : String.prefix "/" (frame_name i) = false.
Proof. unfold frame_name. cbv zeta. now rewrite append_cons. Qed.

Lemma path_join_relative (a : string) :
  exists sep, forall b,
    String.prefix "/" b = false -> path_join a b = a ++ sep ++ b.
Proof.
  unfold path_join.
  destruct (rev (list_ascii_of_string a)) as [|c l] eqn:Ha.
  - exists EmptyString. intros b ->.
    assert (a = EmptyString) as ->; [|reflexivity].
    apply chars_inj. apply (f_equal (@rev ascii)) in Ha.
    now rewrite rev_involutive in Ha.
  - destruct (Ascii.eqb c "/").
    + exists EmptyString. now intros b ->.
    + exists "/". now intros b ->.
Qed.

(** X6: Every frame is written inside the scratch directory, and the frames
    of two different images never share a file: the path made for image
    [i] extends the directory path, and it determines [i]. *)
Theorem frame_paths_distinct (temp_dir : string) (i j : nat) :
  (exists rest, path_join temp_dir (frame_name i) = temp_dir ++ rest)
  /\ (path_join temp_dir (frame_name i) = path_join temp_dir (frame_name j)
      -> i = j).
Proof.
  destruct (path_join_relative temp_dir) as [sep Hjoin].
  rewrite !Hjoin by apply frame_name_relative.
  split; [eauto|].
  intros H. now apply append_inv_head, append_inv_head, frame_name_inj in H.
Qed.

(** ** Reading the probed dimensions *)











(** ** Shape of the canvas *)



(** X9: A wider source never gives a smaller canvas or a smaller font. *)
Theorem frame_geometry_monotone (w w' : Z) :
  0 <= w <= w' ->
  bg_height (frame_geometry w) <= bg_height (frame_geometry w')
  /\ info_height (frame_geometry w) <= info_height (frame_geometry w')
  /\ total_height (frame_geometry w) <= total_height (frame_geometry w')
  /\ font_size (frame_geometry w) <= font_size (frame_geometry w').
Proof.
  intros [Hw Hle].
  rewrite (frame_geometry_floor w Hw), (frame_geometry_floor w') by lia.
  cbv zeta. simpl.
  assert (H1 : w * 9 / 16 <= w' * 9 / 16) by (apply Z.div_le_mono; lia).
  assert (H2 : w * 9 / 16 / 5 <= w' * 9 / 16 / 5)
    by (apply Z.div_le_mono; lia).
  assert (H3 : (w * 9 / 16 + w * 9 / 16 / 5) / 40
               <= (w' * 9 / 16 + w' * 9 / 16 / 5) / 40)
    by (apply Z.div_le_mono; lia).
  repeat split; lia.
Qed.

Lemma frame_geometry_monotone_witness :
  bg_height (frame_geometry 1920) <= bg_height (frame_geometry 3840)
  /\ info_height (frame_geometry 1920) <= info_height (frame_geometry 3840)
  /\ total_height (frame_geometry 1920) <= total_height (frame_geometry 3840)
  /\ font_size (frame_geometry 1920) <= font_size (frame_geometry 3840).
Proof. apply (frame_geometry_monotone 1920 3840). lia. Defined.

(** ** Audio conditioner: errors and results *)






(** ** Progress calls of any run *)

Lemma process_images_calls (e : env) (temp_dir : string) (cb : bool)
    (n : nat) (P : progress_call -> Prop) :
  (forall k, (k < n)%nat -> P (processing_call k n)) ->
  forall image_paths i processed st,
    (i + length image_paths = n)%nat ->
    Forall P (calls st) ->
    Forall P (calls (snd (process_images e temp_dir cb n i image_paths
                            processed st))).
Proof.
  intros HP. induction image_paths as [|img rest IH];
    intros i processed st Hlen Hst; [exact Hst|].
  simpl in *. unfold mbind at 1. unfold lift.
  destruct (process_image _ _ _ _) as [[|]|err]; [| |exact Hst].
  - run_step. destruct cb; simpl; apply IH; try lia; simpl;
      [|exact Hst].
    apply Forall_app. split; [exact Hst|].
    constructor; [|constructor]. apply (HP i). lia.
  - run_step. apply IH; [lia|exact Hst].
Qed.

Lemma read_lines_calls (cb : bool) (P : progress_call -> Prop)
    (polls : list bool) :
  (forall running, P (compiling_call running)) ->
  forall p st,
    Forall P (calls st) ->
    exists q st',
      read_lines cb polls p st = (Ret q, st')
      /\ Forall P (calls st')
      /\ (q = p \/ exists running, q = Some (mux_progress running)).
Proof.
  intros HP. induction polls as [|r rest IH]; intros p st Hst.
  - exists p, st. auto.
  - simpl. destruct cb.
    + run_step.
      match goal with
      | |- context [read_lines true rest ?q0 ?s] =>
          destruct (IH q0 s) as (q & st' & Hrun & Hcalls & Hq)
      end.
      { simpl. apply Forall_app. split; [exact Hst|].
        constructor; [apply (HP r)|constructor]. }
      exists q, st'. rewrite Hrun. split; [reflexivity|].
      split; [exact Hcalls|]. right.
      destruct Hq as [->|Hq]; eauto.
    + apply IH. exact Hst.
Qed.

Lemma create_video_calls (e : env) (image_paths : list string)
    (output_video : string) (duration : Q) (music : option string)
    (progress_callback : bool) (st : state) :
  Forall (well_formed_call (length image_paths)) (calls st) ->
  Forall (well_formed_call (length image_paths))
    (calls (snd (create_video e image_paths output_video duration music
                   progress_callback st))).
Proof.
  intros Hst.
  set (n := length image_paths) in *.
  set (P := well_formed_call n).
  assert (HP1 : forall k, (k < n)%nat -> P (processing_call k n))
    by (intros k Hk; left; eauto).
  assert (HP2 : P compiling_start) by (right; now left).
  assert (HP3 : forall r, P (compiling_call r)) by (intros r; right; eauto).
  unfold create_video, run_mux. run_step. fold n.
  match goal with
  | |- context [process_images e ?t ?c n 0 image_paths [] ?s] =>
      pose proof (process_images_calls e t c n P HP1 image_paths 0%nat []
                    s eq_refl Hst) as Hloop;
      destruct (process_images e t c n 0 image_paths [] s)
        as [[processed|err] st1]
  end; simpl in Hloop; [|exact Hloop].
  destruct processed as [|frame frames]; [exact Hloop|].
  match goal with
  | |- context [condition_audio e music ?d ?t st1] =>
      pose proof (condition_audio_frame e music d t st1) as (_ & Hc & _);
      destruct (condition_audio e music d t st1) as [[final_audio|err] st2]
  end; simpl in Hc; rewrite <- Hc in Hloop; [|exact Hloop].
  destruct (Qeq_bool duration 0); simpl; [exact Hloop|].
  assert (Hstart : Forall P (calls st2 ++ [compiling_start])).
  { apply Forall_app. split; [exact Hloop|]. now repeat constructor. }
  destruct progress_callback; simpl.
  - destruct (mux e _) as [|polls rc]; run_step; [exact Hstart|].
    match goal with
    | |- context [read_lines true polls None ?s] =>
        destruct (read_lines_calls true P polls HP3 None s Hstart)
          as (q & st3 & Hrun & Hcalls & Hq)
    end.
    rewrite Hrun. simpl.
    destruct (negb (rc =? 0)%Z); simpl; [exact Hcalls|].
    destruct Hq as [->|[r ->]]; simpl; [exact Hcalls|].
    apply Forall_app. split; [exact Hcalls|].
    constructor; [apply (HP3 r)|constructor].
  - destruct (mux e _) as [|polls rc]; run_step; [exact Hloop|].
    rewrite read_lines_without_callback. simpl.
    destruct (negb (rc =? 0)%Z); simpl; exact Hloop.
Qed.

(** X12: Whatever the tools answer and however the run ends (True, False or
    an exception), every call [create_video] makes to the callback is
    well formed for the number n of images: a "processing" call
    (k + 1, n) with k < n, the call (0, 0) that opens the muxing stage,
    or a "compiling" call (85 or 70, 100). *)
Theorem progress_calls_well_formed (e : env) (image_paths : list string)
    (output_video : string) (duration : Q) (music : option string)
    (progress_callback : bool) (existing : gset string) :
  Forall (well_formed_call (length image_paths))
    (calls (snd (create_video e image_paths output_video duration music
                   progress_callback (initial existing)))).
Proof. apply create_video_calls. apply List.Forall_nil. Qed.

(** ** Where the exceptions of a run come from *)

Lemma process_images_frame (e : env) (temp_dir : string) (cb : bool)
    (n : nat) (image_paths : list string) :
  forall i processed st,
    let run := process_images e temp_dir cb n i image_paths processed st in
    dirs (snd run) = dirs st /\ launched (snd run) = launched st.
Proof.
  induction image_paths as [|img rest IH]; intros i processed st; cbv zeta;
    [now auto|].
  simpl. unfold mbind at 1. unfold lift.
  destruct (process_image _ _ _ _) as [[|]|err]; [| |now auto].
  - run_step. destruct cb; simpl;
      match goal with
      | |- context [process_images e temp_dir ?c n (S i) rest ?a ?s] =>
          destruct (IH (S i) a s) as [Hd Hl]
      end; now rewrite Hd, Hl.
  - run_step.
    match goal with
    | |- context [process_images e temp_dir cb n (S i) rest ?a ?s] =>
        destruct (IH (S i) a s) as [Hd Hl]
    end. now rewrite Hd, Hl.
Qed.

Lemma process_images_raise (e : env) (temp_dir : string) (cb : bool)
    (n : nat) (image_paths : list string) :
  forall i processed st err,
    fst (process_images e temp_dir cb n i image_paths processed st)
    = Raise err ->
    exists k img_path,
      image_paths !! k = Some img_path
      /\ attempt e temp_dir (i + k) img_path = Raise err.
Proof.
  induction image_paths as [|img rest IH]; intros i processed st err;
    [discriminate|].
  simpl. unfold mbind at 1. unfold lift.
  fold (attempt e temp_dir i img).
  destruct (attempt e temp_dir i img) as [[|]|err'] eqn:Hattempt.
  - run_step. destruct cb; simpl; intros Hrun;
      apply IH in Hrun as (k & p & Hk & Hp);
      exists (S k), p; (split; [exact Hk|]);
      now replace (i + S k)%nat with (S i + k)%nat by lia.
  - run_step. intros Hrun.
    apply IH in Hrun as (k & p & Hk & Hp).
    exists (S k), p. split; [exact Hk|].
    now replace (i + S k)%nat with (S i + k)%nat by lia.
  - simpl. intros [= <-]. exists 0%nat, img. split; [reflexivity|].
    now rewrite Nat.add_0_r.
Qed.

Lemma get_exif_data_completed_error (rc : Z) (stdout : string) (e : exn) :
  get_exif_data (Completed rc stdout) = Raise e -> e = IndexError.
Proof.
  unfold get_exif_data. cbv zeta.
  destruct (exif_field_cases (output_lines stdout) 0)
    as [(l0 & _ & _ & E0)|[_ E0]]; rewrite E0; simpl; [congruence|].
  destruct (exif_field_cases (output_lines stdout) 1)
    as [(l1 & _ & _ & E1)|[_ E1]]; rewrite E1; simpl; [congruence|].
  destruct (exif_field_cases (output_lines stdout) 2)
    as [(l2 & _ & _ & E2)|[_ E2]]; rewrite E2; simpl; [congruence|].
  destruct (exif_field_cases (output_lines stdout) 3)
    as [(l3 & _ & _ & E3)|[_ E3]]; rewrite E3; simpl; [congruence|].
  discriminate.
Qed.

Lemma attempt_error_kinds (w : image_world)
    (input_path output_path text : string) (e : exn) :
  process_image w input_path output_path text = Raise e ->
  e = FileNotFoundError \/ e = IndexError \/ e = TimeoutExpired.
Proof.
  unfold process_image.
  destruct (ffprobe_dims w input_path) as [rc out| |];
    [|discriminate|intros [= <-]; now left].
  destruct (negb (rc =? 0)%Z); [discriminate|].
  cbv zeta. destruct (_ <? 2)%nat; [discriminate|].
  destruct (Py.int (nth 0 _ _)) as [width|]; [|discriminate].
  destruct (Py.int (nth 1 _ _)) as [height|]; [|discriminate].
  assert (Hrun : forall caption,
            match ffmpeg_compose w (compose_cmd w input_path output_path
                                      (frame_geometry width) caption) with
            | Completed returncode _ => Ret (returncode =? 0)%Z
            | TimedOut => Ret false
            | CannotStart => Raise FileNotFoundError
            end = Raise e -> e = FileNotFoundError).
  { intros caption. destruct (ffmpeg_compose w _);
      [discriminate|discriminate|now intros [= <-]]. }
  destruct (String.eqb text EmptyString); simpl; [|intros H; left; eauto].
  destruct (auto_caption w input_path) as [caption|err] eqn:Hc; simpl;
    [intros H; left; eauto|].
  intros [= <-]. right. apply auto_caption_error in Hc.
  destruct (exiftool w input_path) as [rc' out'| |]; simpl in Hc;
    [|injection Hc as <-; now right|discriminate].
  left. now apply (get_exif_data_completed_error rc' out').
Qed.

Lemma audio_error_kinds (w : audio_world) (audio_path : string)
    (video_duration : Q) (temp_dir : string) (e : exn) :
  process_audio_for_video w audio_path video_duration temp_dir = Raise e ->
  e = FileNotFoundError \/ e = TypeError \/ e = ValueError.
Proof.
  unfold process_audio_for_video.
  destruct (get_audio_duration w audio_path) as [d|err] eqn:Hd; simpl.
  - destruct (Qle_bool d 0); [discriminate|].
    destruct (ffmpeg_audio w _) as [rc out| |];
      [|discriminate|intros [= <-]; now left].
    destruct (negb (rc =? 0)%Z); discriminate.
  - intros [= <-]. revert Hd.
    unfold get_audio_duration, json_getitem, json_float.
    destruct (ffprobe_duration w audio_path) as [rc out| |]; simpl;
      [|discriminate|intros [= <-]; now left].
    destruct (json_loads w out) as [data|]; simpl; [|discriminate].
    intros He.
    repeat match type of He with
           | context [match ?x with _ => _ end] =>
               destruct x; simpl in He; try discriminate He
           end;
      injection He as <-; auto.
Qed.

Lemma create_video_raise_cases (e : env) (image_paths : list string)
    (output_video : string) (duration : Q) (music : option string)
    (progress_callback : bool) (st : state) (err : exn) :
  let run := create_video e image_paths output_video duration music
               progress_callback st in
  fst run = Raise err ->
  ((exists k img_path,
      image_paths !! k = Some img_path
      /\ attempt e (mkdtemp e) k img_path = Raise err)
   /\ mkdtemp e ∈ dirs (snd run))
  \/ ((exists m required,
         music = Some m
         /\ process_audio_for_video (audio_env e) m required (mkdtemp e)
            = Raise err)
      /\ mkdtemp e ∈ dirs (snd run))
  \/ ((err = ZeroDivisionError /\ (duration == 0)%Q)
      /\ mkdtemp e ∈ dirs (snd run))
  \/ ((err = UnboundLocalError
       /\ exists cmd polls,
            mux e cmd = MuxRan polls 0
            /\ (progress_callback = false \/ polls = []))
      /\ mkdtemp e ∉ dirs (snd run)).
Proof.
  cbv zeta. unfold create_video, run_mux. run_step.
  assert (Hin : forall X : gset string, mkdtemp e ∈ {[mkdtemp e]} ∪ X).
  { intros X. apply elem_of_union. left. now apply elem_of_singleton. }
  match goal with
  | |- context [process_images e ?t ?c ?n 0 image_paths [] ?s] =>
      pose proof (process_images_frame e t c n image_paths 0%nat [] s)
        as [Hd1 _];
      pose proof (process_images_raise e t c n image_paths 0%nat [] s)
        as Hraise;
      destruct (process_images e t c n 0 image_paths [] s)
        as [[processed|err1] st1]
  end; simpl in Hd1, Hraise.
  2:{ simpl. intros [= <-]. left. split; [now apply Hraise|].
      rewrite Hd1. apply Hin. }
  destruct processed as [|frame frames]; [discriminate|].
  match goal with
  | |- context [condition_audio e music ?d ?t st1] =>
      pose proof (condition_audio_frame e music d t st1) as (Hd2 & _ & _);
      destruct (condition_audio e music d t st1) as [[final_audio|err2] st2]
        eqn:Haudio
  end; simpl in Hd2.
  2:{ simpl. intros [= <-]. right; left. split.
      - unfold condition_audio in Haudio.
        destruct music as [m|]; [|discriminate].
        destruct (String.eqb m EmptyString); [discriminate|].
        run_step.
        destruct (process_audio_for_video _ _ _ _) as [[a|]|err3] eqn:Hp;
          [discriminate|discriminate|].
        injection Haudio as <- _. eauto.
      - rewrite Hd2, Hd1. apply Hin. }
  destruct (Qeq_bool duration 0) eqn:Hq; simpl.
  { intros [= <-]. right; right; left. split.
    - split; [reflexivity|]. now apply Qeq_bool_iff.
    - rewrite Hd2, Hd1. apply Hin. }
  destruct (mux e _) as [|polls rc] eqn:Hmux.
  { run_step. destruct progress_callback; discriminate. }
  run_step.
  destruct progress_callback; simpl.
  - match goal with
    | |- context [read_lines true polls None ?s] =>
        destruct (read_lines_with_callback polls None s)
          as (st3 & Hrun & _)
    end.
    rewrite Hrun. simpl.
    destruct (Z.eqb_spec rc 0) as [->|Hrc]; simpl; [|discriminate].
    destruct polls as [|r rest].
    + simpl. intros [= <-]. right; right; right. split.
      * split; [reflexivity|]. eauto.
      * apply removed_absent.
    + destruct (progress_after_some (r :: rest) None) as [q Hq'];
        [discriminate|].
      rewrite Hq'. discriminate.
  - rewrite read_lines_without_callback. simpl.
    destruct (Z.eqb_spec rc 0) as [->|Hrc]; simpl; [|discriminate].
    intros [= <-]. right; right; right. split.
    + split; [reflexivity|]. eauto.
    + apply removed_absent.
Qed.

(** X13: An exception that leaves [create_video] is the exception of one
    composition attempt, the exception of the audio conditioning,
    ZeroDivisionError for a zero duration, or the UnboundLocalError of the
    final statement after a mux that exited with code 0 (no callback, or
    no line of mux output). *)
Theorem create_video_error_sources (e : env) (image_paths : list string)
    (output_video : string) (duration : Q) (music : option string)
    (progress_callback : bool) (st : state) (err : exn) :
  fst (create_video e image_paths output_video duration music
         progress_callback st) = Raise err ->
  (exists k img_path,
     image_paths !! k = Some img_path
     /\ attempt e (mkdtemp e) k img_path = Raise err)
  \/ (exists m required,
        music = Some m
        /\ process_audio_for_video (audio_env e) m required (mkdtemp e)
           = Raise err)
  \/ (err = ZeroDivisionError /\ (duration == 0)%Q)
  \/ (err = UnboundLocalError
      /\ exists cmd polls,
           mux e cmd = MuxRan polls 0
           /\ (progress_callback = false \/ polls = [])).
Proof.
  intros Hrun.
  destruct (create_video_raise_cases e image_paths output_video duration
              music progress_callback st err Hrun)
    as [[H _]|[[H _]|[[H _]|[H _]]]]; auto.
Qed.

Lemma create_video_error_sources_witness :
  (exists k img_path,
     ["a.jpg"] !! k = Some img_path
     /\ attempt (sample_env (fun _ => unprobed_image) quick_mux)
          (mkdtemp (sample_env (fun _ => unprobed_image) quick_mux))
          k img_path = Raise FileNotFoundError)
  \/ (exists m required,
        @None string = Some m
        /\ process_audio_for_video
             (audio_env (sample_env (fun _ => unprobed_image) quick_mux))
             m required
             (mkdtemp (sample_env (fun _ => unprobed_image) quick_mux))
           = Raise FileNotFoundError)
  \/ (FileNotFoundError = ZeroDivisionError /\ (5 == 0)%Q)
  \/ (FileNotFoundError = UnboundLocalError
      /\ exists cmd polls,
           mux (sample_env (fun _ => unprobed_image) quick_mux) cmd
           = MuxRan polls 0
           /\ (true = false \/ polls = [])).
Proof.
  apply (create_video_error_sources
           (sample_env (fun _ => unprobed_image) quick_mux)
           ["a.jpg"] "out.mp4" 5 None true (initial ∅) FileNotFoundError).
  reflexivity.
Defined.

(** X14: When [create_video] raises, the scratch directory is left behind,
    unless the exception is the UnboundLocalError of the final statement,
    which comes after the cleanup. *)
Theorem scratch_left_unless_final_error (e : env)
    (image_paths : list string) (output_video : string) (duration : Q)
    (music : option string) (progress_callback : bool) (st : state)
    (err : exn) :
  let run := create_video e image_paths output_video duration music
               progress_callback st in
  fst run = Raise err ->
  (mkdtemp e ∈ dirs (snd run) <-> err <> UnboundLocalError).
Proof.
  cbv zeta. intros Hrun.
  destruct (create_video_raise_cases e image_paths output_video duration
              music progress_callback st err Hrun)
    as [[(k & img & _ & Ha) Hin]|[[(m & req & _ & Ha) Hin]
       |[[[-> _] Hin]|[[-> _] Hout]]]].
  - split; [intros _|intros _; exact Hin].
    apply attempt_error_kinds in Ha as [->|[->| ->]]; discriminate.
  - split; [intros _|intros _; exact Hin].
    apply audio_error_kinds in Ha as [->|[->| ->]]; discriminate.
  - split; [discriminate|intros _; exact Hin].
  - split; [contradiction|congruence].
Qed.

Lemma scratch_left_unless_final_error_witness :
  let run := create_video (sample_env (fun _ => unprobed_image) quick_mux)
               ["a.jpg"] "out.mp4" 5 None true (initial ∅) in
  mkdtemp (sample_env (fun _ => unprobed_image) quick_mux) ∈ dirs (snd run)
  <-> FileNotFoundError <> UnboundLocalError.
Proof.
  apply (scratch_left_unless_final_error
           (sample_env (fun _ => unprobed_image) quick_mux)
           ["a.jpg"] "out.mp4" 5 None true (initial ∅) FileNotFoundError).
  reflexivity.
Defined.

(** ** What a returned True or False means *)

Lemma mux_cmd_last (e : env) (temp_dir : string) (framerate : Q)
    (final_audio : option string) (video_codec pix_fmt : string)
    (bitrate_options : list arg) (output_video : string) :
  last (mux_cmd e temp_dir framerate final_audio video_codec pix_fmt
          bitrate_options output_video) = Some (Lit output_video).
Proof. unfold mux_cmd. rewrite !app_assoc. apply last_snoc. Qed.

(** X15: [create_video] returns True only if a callback was supplied, the
    duration is not zero, and the muxing tool was started exactly once,
    on a command whose last argument is the output path, printed at least
    one line and exited with code 0; the scratch directory is then
    gone. *)
Theorem create_video_true_only_if (e : env) (image_paths : list string)
    (output_video : string) (duration : Q) (music : option string)
    (progress_callback : bool) (st : state) :
  let run := create_video e image_paths output_video duration music
               progress_callback st in
  fst run = Ret true ->
  progress_callback = true
  /\ ~ (duration == 0)%Q
  /\ (mkdtemp e ∉ dirs (snd run))
  /\ exists cmd polls,
       mux e cmd = MuxRan polls 0 /\ polls <> []
       /\ last cmd = Some (Lit output_video)
       /\ launched (snd run) = (launched st ++ [cmd])%list.
Proof.
  cbv zeta. unfold create_video, run_mux. run_step.
  match goal with
  | |- context [process_images e ?t ?c ?n 0 image_paths [] ?s] =>
      pose proof (process_images_frame e t c n image_paths 0%nat [] s)
        as [_ Hl1];
      destruct (process_images e t c n 0 image_paths [] s)
        as [[processed|err1] st1]
  end; simpl in Hl1; [|discriminate].
  destruct processed as [|frame frames]; [discriminate|].
  match goal with
  | |- context [condition_audio e music ?d ?t st1] =>
      pose proof (condition_audio_frame e music d t st1) as (_ & _ & Hl2);
      destruct (condition_audio e music d t st1) as [[final_audio|err2] st2]
  end; simpl in Hl2; [|discriminate].
  destruct (Qeq_bool duration 0) eqn:Hq; simpl; [discriminate|].
  assert (Hdur : ~ (duration == 0)%Q).
  { intros H. apply Qeq_bool_iff in H. congruence. }
  destruct (mux e _) as [|polls rc] eqn:Hmux.
  { run_step. destruct progress_callback; discriminate. }
  run_step. destruct progress_callback; simpl.
  - match goal with
    | |- context [read_lines true polls None ?s] =>
        destruct (read_lines_with_callback polls None s)
          as (st3 & Hrun & _ & _ & Hl3 & _)
    end.
    rewrite Hrun. simpl.
    destruct (Z.eqb_spec rc 0) as [->|Hrc]; simpl; [|discriminate].
    destruct polls as [|r rest]; [discriminate|].
    destruct (progress_after_some (r :: rest) None) as [q Hq'];
      [discriminate|].
    rewrite Hq'. simpl. intros _.
    split; [reflexivity|]. split; [exact Hdur|].
    split; [apply removed_absent|].
    eexists _, (r :: rest). split; [exact Hmux|]. split; [discriminate|].
    split; [apply mux_cmd_last|].
    rewrite Hl3. simpl. now rewrite Hl2, Hl1.
  - rewrite read_lines_without_callback. simpl.
    destruct (negb (rc =? 0)%Z); discriminate.
Qed.

Lemma create_video_true_only_if_witness :
  let run := create_video all_good ["a.jpg"] "out.mp4" 5 None true
               (initial ∅) in
  true = true
  /\ ~ (5 == 0)%Q
  /\ (mkdtemp all_good ∉ dirs (snd run))
  /\ exists cmd polls,
       mux all_good cmd = MuxRan polls 0 /\ polls <> []
       /\ last cmd = Some (Lit "out.mp4")
       /\ launched (snd run) = (launched (initial ∅) ++ [cmd])%list.
Proof.
  apply (create_video_true_only_if all_good ["a.jpg"] "out.mp4" 5 None true
           (initial ∅)).
  reflexivity.
Defined.

(** X16: A failure of the final mux is absorbed: when at least one frame was
    composed and the muxing tool cannot be started or exits with a
    non-zero code, [create_video] raises nothing, returns False and has
    removed the scratch directory, with or without a callback. *)
Theorem mux_failure_returns_false (e : env) (image_paths : list string)
    (output_video : string) (duration : Q) (music : option string)
    (progress_callback : bool) (bs : list bool) (st : state) :
  outcomes e (mkdtemp e) 0 image_paths bs ->
  successes bs <> 0%nat ->
  (forall st0, exists final_audio,
     fst (condition_audio e music
            (inject_Z (Z.of_nat (successes bs)) * duration) (mkdtemp e) st0)
     = Ret final_audio) ->
  ~ (duration == 0)%Q ->
  (forall cmd, mux_failed (mux e cmd)) ->
  let run := create_video e image_paths output_video duration music
               progress_callback st in
  fst run = Ret false /\ (mkdtemp e ∉ dirs (snd run)).
Proof.
  intros Hout Hpos Haudio Hdur Hmux. cbv zeta.
  unfold create_video, run_mux. run_step.
  match goal with
  | |- context [process_images ?e' ?t ?c ?n ?i ?l ?a ?s] =>
      destruct (process_images_outcomes e' t c n l i _ a s Hout)
        as (st1 & Hrun & _)
  end.
  rewrite Hrun. simpl.
  pose proof (kept_frames_length (mkdtemp e) bs 0) as Hlen.
  destruct (kept_frames (mkdtemp e) 0 bs) as [|frame frames] eqn:Hframes;
    [simpl in Hlen; congruence|].
  unfold total_duration_of. rewrite Hlen.
  destruct (Haudio st1) as [final_audio Hfa].
  destruct (condition_audio e music _ (mkdtemp e) st1) as [ra st2].
  simpl in Hfa. subst ra.
  assert (Hq : Qeq_bool duration 0 = false).
  { destruct (Qeq_bool duration 0) eqn:Hq; [|reflexivity].
    apply Qeq_bool_iff in Hq. contradiction. }
  rewrite Hq. simpl.
  destruct progress_callback; simpl;
    match goal with
    | |- context [mux e ?cmd] =>
        destruct (Hmux cmd) as [Hm|(polls & rc & Hm & Hrc)]; rewrite Hm
    end; run_step; try (split; [reflexivity|apply removed_absent]).
  - match goal with
    | |- context [read_lines true polls None ?s] =>
        destruct (read_lines_with_callback polls None s)
          as (st3 & Hread & _)
    end.
    rewrite Hread. simpl. destruct (Z.eqb_spec rc 0); [contradiction|].
    simpl. split; [reflexivity|apply removed_absent].
  - rewrite read_lines_without_callback. simpl.
    destruct (Z.eqb_spec rc 0); [contradiction|].
    simpl. split; [reflexivity|apply removed_absent].
Qed.

Lemma mux_failure_returns_false_witness :
  let run := create_video no_mux_env ["a.jpg"] "out.mp4" 5 None false
               (initial ∅) in
  fst run = Ret false /\ (mkdtemp no_mux_env ∉ dirs (snd run)).
Proof.
  apply (mux_failure_returns_false no_mux_env ["a.jpg"] "out.mp4" 5 None
           false [true] (initial ∅)).
  - split; [reflexivity|exact I].
  - discriminate.
  - intros st0. exists None. reflexivity.
  - intros H. discriminate H.
  - intros cmd. now left.
Defined.

(** ** A failed audio conditioning *)

(** X17: When the conditioning of the music fails (returns no track), the run
    is the run without music in all but its log: same result, same mux
    command, same progress calls, same directories. *)
Theorem failed_audio_like_no_music (e : env) (image_paths : list string)
    (output_video : string) (duration : Q) (m : string)
    (progress_callback : bool) (st : state) :
  (forall required,
     process_audio_for_video (audio_env e) m required (mkdtemp e)
     = Ret None) ->
  same_but_log
    (create_video e image_paths output_video duration (Some m)
       progress_callback st)
    (create_video e image_paths output_video duration None
       progress_callback st).
Proof.
  intros Hnone. unfold same_but_log, create_video, run_mux, condition_audio.
  run_step.
  destruct (process_images _ _ _ _ _ _ _ _) as [[processed|err] st1];
    simpl; [|now auto].
  destruct processed as [|frame frames]; [now auto|].
  destruct (String.eqb m EmptyString); run_step; rewrite ?Hnone; simpl;
    destruct (Qeq_bool duration 0); simpl; auto;
    destruct progress_callback; simpl;
    destruct (mux e _) as [|polls rc]; run_step; auto;
    rewrite ?read_lines_without_callback; simpl;
    try (destruct (negb (rc =? 0)%Z); simpl; now auto).
  repeat match goal with
         | |- context [read_lines true polls None ?s] =>
             let st3 := fresh "st3" in
             let Hr := fresh "Hr" in
             destruct (read_lines_with_callback polls None s)
               as (st3 & Hr & ? & ? & ? & ?);
             rewrite Hr
         end.
  simpl. destruct (negb (rc =? 0)%Z); simpl;
    [|destruct (progress_after polls None); simpl];
    repeat split; simpl in *; congruence.
Qed.

Lemma failed_audio_like_no_music_witness :
  same_but_log
    (create_video deaf_env ["a.jpg"] "out.mp4" 5 (Some "song.mp3") true
       (initial ∅))
    (create_video deaf_env ["a.jpg"] "out.mp4" 5 None true (initial ∅)).
Proof.
  apply (failed_audio_like_no_music deaf_env ["a.jpg"] "out.mp4" 5
           "song.mp3" true (initial ∅)).
  intros required. reflexivity.
Defined.

(** * Properties of the desktop caller *)

(** ** The progress label *)


Lemma update_progress_label_done (p : Q) (total : num) :
  ~ (p == 0)%Q ->
  update_progress_label (Float p) total None = Ret (LabelDone p).
Proof.
  intros Hp. unfold update_progress_label. simpl.
  destruct (Qeq_bool p 0) eqn:E; [|reflexivity].
  apply Qeq_bool_eq in E. contradiction.
Qed.

(** ** The callback of [run_creation] *)

Lemma py_min_cases (a b : Q) :
  (py_min a b = b /\ (b < a)%Q) \/ (py_min a b = a /\ (a <= b)%Q).
Proof. unfold py_min. destruct (Qlt_le_dec b a); auto. Qed.

Lemma share_bounds (k n : nat) :
  (k < n)%nat ->
  let x := (inject_Z (Z.of_nat k + 1) / inject_Z (Z.of_nat n) * 70)%Q in
  (0 < x)%Q /\ (x <= 70)%Q.
Proof.
  intros Hk x.
  assert (Hn : (0 < inject_Z (Z.of_nat n))%Q)
    by (rewrite <- (Zlt_Qlt 0); lia).
  assert (Hk1 : (0 < inject_Z (Z.of_nat k + 1))%Q)
    by (rewrite <- (Zlt_Qlt 0); lia).
  assert (Hle : (inject_Z (Z.of_nat k + 1) <= inject_Z (Z.of_nat n))%Q)
    by (rewrite <- Zle_Qle; lia).
  set (a := inject_Z (Z.of_nat k + 1)) in *.
  set (b := inject_Z (Z.of_nat n)) in *.
  assert (H0 : (0 < a / b)%Q).
  { apply Qlt_shift_div_l; [exact Hn|]. now rewrite Qmult_0_l. }
  assert (H1 : (a / b <= 1)%Q).
  { apply Qle_shift_div_r; [exact Hn|]. now rewrite Qmult_1_l. }
  subst x. split.
  - rewrite <- (Qmult_0_l 70). apply Qmult_lt_compat_r; [reflexivity|exact H0].
  - rewrite <- (Qmult_1_l 70) at 2.
    apply Qmult_le_compat_r; [exact H1|discriminate].
Qed.

Lemma progress_callback_well_formed (n : nat) (c : progress_call) (g : gui) :
  well_formed_call n c ->
  exists p,
    progress_callback c g = Ret (set_progress g p (LabelDone p))
    /\ (0 < p)%Q /\ (p <= 191 # 2)%Q
    /\ (phase c = "processing" -> (p <= 70)%Q)
    /\ (phase c = "compiling" -> (70 <= p)%Q)
    /\ (p == uncapped_position c)%Q.
Proof.
  intros [(k & Hk & ->)|[->|[running ->]]].
  - unfold progress_callback. simpl.
    destruct (share_bounds k n Hk) as [H0 H1]. cbv zeta in H0, H1.
    assert (Hn : Qeq_bool (inject_Z (Z.of_nat n)) 0 = false).
    { destruct (Qeq_bool _ 0) eqn:E; [|reflexivity].
      apply Qeq_bool_eq in E. revert E. unfold Qeq. simpl. lia. }
    rewrite Hn.
    set (x := (inject_Z (Z.of_nat k + 1) / inject_Z (Z.of_nat n) * 70)%Q)
      in *.
    assert (Hp : (0 < py_min 70 x)%Q /\ (py_min 70 x <= 70)%Q).
    { destruct (py_min_cases 70 x) as [[-> ?]|[-> ?]]; split;
        auto; reflexivity || discriminate. }
    destruct Hp as [Hp0 Hp1].
    exists (py_min 70 x).
    assert (Hz : Qeq_bool (py_min 70 x) 0 = false).
    { destruct (Qeq_bool (py_min 70 x) 0) eqn:E; [|reflexivity].
      apply Qeq_bool_eq in E. rewrite E in Hp0. discriminate Hp0. }
    rewrite Hz. split; [reflexivity|]. split; [exact Hp0|].
    split; [eapply Qle_trans; [exact Hp1|discriminate]|].
    split; [auto|]. split; [discriminate|].
    unfold uncapped_position. simpl. fold x.
    destruct (py_min_cases 70 x) as [[-> _]|[-> Hge]]; [reflexivity|].
    now apply Qle_antisym.
  - exists (py_min 100 (70 + 0 / 100 * 30)). vm_compute.
    repeat split; congruence.
  - exists (py_min 100 (70 + mux_progress running / 100 * 30)).
    destruct running; vm_compute; repeat split; congruence.
Qed.

(** X19: On every call that [create_video] can make, the callback of
    [run_creation] returns normally (no division by zero), leaves the
    button and the dialogs alone, and moves the bar to a position p with
    0 < p <= 95.5, at most 70 in the "processing" phase and at least 70 in
    the "compiling" phase, with the label showing that p as a completion
    percentage.  The caps 70.0 and 100.0 never cut the computed
    position. *)
Theorem progress_callback_returns (n : nat) (c : progress_call) (g : gui) :
  well_formed_call n c ->
  exists g',
    progress_callback c g = Ret g'
    /\ create_btn_enabled g' = create_btn_enabled g
    /\ dialogs g' = dialogs g
    /\ progress_label g' = LabelDone (progress_var g')
    /\ (0 < progress_var g')%Q /\ (progress_var g' <= 191 # 2)%Q
    /\ (phase c = "processing" -> (progress_var g' <= 70)%Q)
    /\ (phase c = "compiling" -> (70 <= progress_var g')%Q)
    /\ (progress_var g' == uncapped_position c)%Q.
Proof.
  intros Hc.
  destruct (progress_callback_well_formed n c g Hc)
    as (p & Hrun & H0 & H1 & H2 & H3 & H4).
  exists (set_progress g p (LabelDone p)). simpl. auto 10.
Qed.

Lemma progress_callback_returns_witness :
  exists g',
    progress_callback (processing_call 2 4) started_gui = Ret g'
    /\ create_btn_enabled g' = create_btn_enabled started_gui
    /\ dialogs g' = dialogs started_gui
    /\ progress_label g' = LabelDone (progress_var g')
    /\ (0 < progress_var g')%Q /\ (progress_var g' <= 191 # 2)%Q
    /\ (phase (processing_call 2 4) = "processing"
        -> (progress_var g' <= 70)%Q)
    /\ (phase (processing_call 2 4) = "compiling"
        -> (70 <= progress_var g')%Q)
    /\ (progress_var g' == uncapped_position (processing_call 2 4))%Q.
Proof.
  apply (progress_callback_returns 4 (processing_call 2 4) started_gui).
  left. exists 2%nat. split; [lia|reflexivity].
Defined.

Lemma deliver_well_formed (n : nat) (cs : list progress_call) :
  Forall (well_formed_call n) cs ->
  forall g, exists g',
    deliver cs g = Ret g'
    /\ create_btn_enabled g' = create_btn_enabled g
    /\ dialogs g' = dialogs g
    /\ (g' = g
        \/ (progress_label g' = LabelDone (progress_var g')
            /\ (0 < progress_var g')%Q /\ (progress_var g' <= 191 # 2)%Q)).
Proof.
  induction 1 as [|c cs Hc _ IH]; intros g.
  - exists g. simpl. auto.
  - destruct (progress_callback_well_formed n c g Hc)
      as (p & Hrun & H0 & H1 & _).
    destruct (IH (set_progress g p (LabelDone p)))
      as (g' & Hrest & Hbtn & Hdlg & Hbar).
    exists g'. simpl. rewrite Hrun. simpl.
    split; [exact Hrest|]. split; [exact Hbtn|]. split; [exact Hdlg|].
    right. destruct Hbar as [->|Hbar]; [simpl; auto|exact Hbar].
Qed.

(** ** A whole run from the window *)

Lemma callback_safe_run_aux (e : env) (img_paths : list string)
    (output_path : string) (duration : Q) (music : option string)
    (existing : gset string) (g : gui) :
  exists g',
    deliver (calls (snd (create_video e img_paths output_path duration
                           music true (initial existing)))) g = Ret g'
    /\ create_btn_enabled g' = create_btn_enabled g
    /\ dialogs g' = dialogs g
    /\ (g' = g
        \/ (progress_label g' = LabelDone (progress_var g')
            /\ (0 < progress_var g')%Q /\ (progress_var g' <= 191 # 2)%Q)).
Proof.
  apply (deliver_well_formed (length img_paths)).
  apply create_video_calls. apply List.Forall_nil.
Qed.

(** X20: Whatever the tools answer, the callback of [run_creation] never
    raises during a run of [create_video]: the calls of the run are all
    delivered, the button and the dialogs are untouched by them, and the
    bar is either where it was (no call was made) or at a position in
    (0, 95.5]; the callbacks alone never bring the bar to 100. *)
Theorem callback_safe_in_every_run (e : env) (img_paths : list string)
    (output_path : string) (duration : Q) (music : option string)
    (existing : gset string) (g : gui) :
  exists g',
    deliver (calls (snd (create_video e img_paths output_path duration
                           music true (initial existing)))) g = Ret g'
    /\ create_btn_enabled g' = create_btn_enabled g
    /\ dialogs g' = dialogs g
    /\ (g' = g
        \/ (progress_label g' = LabelDone (progress_var g')
            /\ (0 < progress_var g')%Q /\ (progress_var g' <= 191 # 2)%Q)).
Proof. apply callback_safe_run_aux. Qed.

Lemma final_label : update_progress_label (Int 100) (Int 100) None
                    = Ret (LabelDone 100).
Proof. reflexivity. Qed.

(** X21: However the run ends, [run_creation] re-enables the button, leaves
    the label at "100.0%" (also after a failure or an exception) and
    shows exactly one dialog: the success message when [create_video]
    returned True, the failure message when it returned False, the error
    message when it raised.  The bar, started below 100, stands at 100
    afterwards exactly when [create_video] returned True. *)
Theorem run_creation_outcome (e : env) (existing : gset string)
    (img_paths : list string) (output_path : string) (duration : Q)
    (music : option string) (text : string) (g : gui) :
  (progress_var g < 100)%Q ->
  let r := run_creation e existing img_paths output_path duration music
             text g in
  create_btn_enabled (fst r) = true
  /\ progress_label (fst r) = LabelDone 100
  /\ dialogs (fst r)
     = (dialogs g
        ++ [match fst (snd r) with
            | Ret true => InfoCreated output_path
            | Ret false => ErrorCreationFailed
            | Raise err => ErrorRaised err
            end])%list
  /\ ((progress_var (fst r) == 100)%Q <-> fst (snd r) = Ret true).
Proof.
  intros Hg. unfold run_creation. cbv zeta. rewrite final_label.
  destruct (callback_safe_run_aux e img_paths output_path duration music
              existing g) as (g1 & Hrun & _ & Hdlg & Hbar).
  rewrite Hrun.
  assert (Hlt : (progress_var g1 < 100)%Q).
  { destruct Hbar as [->|(_ & _ & Hle)]; [exact Hg|].
    eapply Qle_lt_trans; [exact Hle|reflexivity]. }
  destruct (fst (create_video _ _ _ _ _ _ _)) as [[|]|err] eqn:Ev; simpl;
    rewrite ?Ev, Hdlg; repeat split; try reflexivity; try discriminate;
    intros E; rewrite E in Hlt; discriminate Hlt.
Qed.

Lemma run_creation_outcome_witness :
  let r := run_creation all_good ∅ ["a.jpg"] "out.mp4" 5 None "Lisbon"
             started_gui in
  create_btn_enabled (fst r) = true
  /\ progress_label (fst r) = LabelDone 100
  /\ dialogs (fst r)
     = (dialogs started_gui
        ++ [match fst (snd r) with
            | Ret true => InfoCreated "out.mp4"
            | Ret false => ErrorCreationFailed
            | Raise err => ErrorRaised err
            end])%list
  /\ ((progress_var (fst r) == 100)%Q <-> fst (snd r) = Ret true).
Proof.
  apply (run_creation_outcome all_good ∅ ["a.jpg"] "out.mp4" 5 None
           "Lisbon" started_gui).
  reflexivity.
Defined.

(** ** Validation of the form *)

Lemma start_creation_start (img_paths : list string) (output_path : string)
    (duration : Q) (music_var text : string)
    (paths : list string) (out : string) (d : Q) (m : option string)
    (t : string) (warned : bool) :
  start_creation img_paths output_path duration music_var text
  = Start paths out d m t warned ->
  paths = firstn MAX_IMAGES img_paths
  /\ paths <> [] /\ (length paths <= MAX_IMAGES)%nat
  /\ out = output_path /\ out <> EmptyString
  /\ d = duration /\ (0 < d)%Q
  /\ m <> Some EmptyString /\ (m = None <-> music_var = EmptyString)
  /\ t = text
  /\ (warned = true <-> (MAX_IMAGES < length img_paths)%nat).
Proof.
  unfold start_creation.
  destruct img_paths as [|img rest]; [discriminate|].
  destruct (String.eqb output_path EmptyString) eqn:Eo; [discriminate|].
  destruct (Qle_bool duration 0) eqn:Ed; [discriminate|].
  assert (Hout : output_path <> EmptyString).
  { intros ->. discriminate Eo. }
  assert (Hd : (0 < duration)%Q).
  { apply Qnot_le_lt. intros H. apply Qle_bool_iff in H. congruence. }
  assert (Hm : (if String.eqb music_var EmptyString then None
                else Some music_var) <> Some EmptyString
               /\ ((if String.eqb music_var EmptyString then None
                    else Some music_var) = None
                   <-> music_var = EmptyString)).
  { destruct (String.eqb music_var EmptyString) eqn:Em.
    - apply String.eqb_eq in Em. split; [discriminate|tauto].
    - apply String.eqb_neq in Em. split; [congruence|].
      split; [discriminate|contradiction]. }
  destruct Hm as [Hm1 Hm2].
  destruct (MAX_IMAGES <? length (img :: rest))%nat eqn:En;
    intros [= <- <- <- <- <- <-].
  - apply Nat.ltb_lt in En.
    repeat split; auto; try apply Hm2; try discriminate.
    apply (firstn_le_length MAX_IMAGES (img :: rest)).
  - apply Nat.ltb_ge in En.
    rewrite firstn_all2 by exact En.
    repeat split; auto; try apply Hm2; try discriminate.
    intros H. lia.
Qed.

(** X22: When [start_creation] starts the worker thread, the arguments it
    hands over are the first 100 images of the list (all of them when
    there are at most 100), never an empty list, a non-empty output path,
    a positive duration, and a music path that is None exactly when the
    field is empty (never the empty string); the warning was shown exactly
    when the list held more than 100 images. *)
Theorem start_creation_guards (img_paths : list string)
    (output_path : string) (duration : Q) (music_var text : string)
    (paths : list string) (out : string) (d : Q) (m : option string)
    (t : string) (warned : bool) :
  start_creation img_paths output_path duration music_var text
  = Start paths out d m t warned ->
  paths = firstn MAX_IMAGES img_paths
  /\ paths <> [] /\ (length paths <= MAX_IMAGES)%nat
  /\ out = output_path /\ out <> EmptyString
  /\ d = duration /\ (0 < d)%Q
  /\ m <> Some EmptyString /\ (m = None <-> music_var = EmptyString)
  /\ t = text
  /\ (warned = true <-> (MAX_IMAGES < length img_paths)%nat).
Proof. apply start_creation_start. Qed.

Lemma start_creation_guards_witness :
  ["a.jpg"; "b.jpg"] = firstn MAX_IMAGES ["a.jpg"; "b.jpg"]
  /\ ["a.jpg"; "b.jpg"] <> []
  /\ (length ["a.jpg"; "b.jpg"] <= MAX_IMAGES)%nat
  /\ "out.mp4" = "out.mp4" /\ "out.mp4" <> EmptyString
  /\ (7 = 7)%Q /\ (0 < 7)%Q
  /\ @None string <> Some EmptyString
  /\ (@None string = None <-> EmptyString = EmptyString)
  /\ "Lisbon" = "Lisbon"
  /\ (false = true <-> (MAX_IMAGES < length ["a.jpg"; "b.jpg"])%nat).
Proof.
  apply (start_creation_guards ["a.jpg"; "b.jpg"] "out.mp4" 7 EmptyString
           "Lisbon").
  reflexivity.
Defined.



(** X24: The caption typed in the form has no influence: two forms that differ
    in the caption only are refused with the same dialog, or start runs
    that end in the same window, with the same result and the same
    effects. *)
Theorem form_text_is_ignored (e : env) (existing : gset string)
    (img_paths : list string) (output_path : string) (duration : Q)
    (music_var text text' : string) (g : gui) :
  match start_creation img_paths output_path duration music_var text,
        start_creation img_paths output_path duration music_var text' with
  | Start p o d m t _, Start p' o' d' m' t' _ =>
      run_creation e existing p o d m t g
      = run_creation e existing p' o' d' m' t' g
  | Refuse dlg, Refuse dlg' => dlg = dlg'
  | _, _ => False
  end.
Proof.
  unfold start_creation.
  destruct img_paths as [|img rest]; [reflexivity|].
  destruct (String.eqb output_path EmptyString); [reflexivity|].
  destruct (Qle_bool duration 0); [reflexivity|].
  destruct (MAX_IMAGES <? length (img :: rest))%nat; reflexivity.
Qed.

(** ** The list of images *)

Lemma add_files_cons (file : string) (files listbox : list string) :
  add_files (file :: files) listbox
  = add_files files (if decide (file ∈ listbox) then listbox
                     else (listbox ++ [file])%list).
Proof. reflexivity. Qed.

Lemma add_files_spec (files : list string) :
  forall listbox,
    (NoDup listbox -> NoDup (add_files files listbox))
    /\ (exists added, add_files files listbox = (listbox ++ added)%list)
    /\ (forall x, x ∈ add_files files listbox <-> x ∈ listbox \/ x ∈ files).
Proof.
  induction files as [|file files IH]; intros listbox.
  - simpl. split; [auto|]. split.
    + exists []. now rewrite app_nil_r.
    + intros x. rewrite elem_of_nil. tauto.
  - rewrite add_files_cons.
    destruct (decide (file ∈ listbox)) as [Hin|Hout].
    + destruct (IH listbox) as (Hnd & Hpre & Hmem).
      split; [exact Hnd|]. split; [exact Hpre|].
      intros x. rewrite Hmem, elem_of_cons.
      split; [tauto|]. intros [?|[->|?]]; auto.
    + destruct (IH (listbox ++ [file])%list) as (Hnd & [added Hpre] & Hmem).
      split; [|split].
      * intros H. apply Hnd. apply NoDup_app. split; [exact H|].
        split; [|apply NoDup_singleton].
        intros x Hx Hx'. apply list_elem_of_singleton in Hx'. now subst x.
      * exists (file :: added). rewrite Hpre, <- app_assoc. reflexivity.
      * intros x. rewrite Hmem, elem_of_app, list_elem_of_singleton,
          elem_of_cons. tauto.
Qed.

(** X25: [add_files] never creates a duplicate: a list box without repeated
    items has none afterwards (even when the chosen files repeat), the
    items it held keep their places at the front, and afterwards it holds
    exactly its former items and the chosen files. *)
Theorem add_files_no_duplicates (files listbox : list string) :
  NoDup listbox ->
  NoDup (add_files files listbox)
  /\ (exists added, add_files files listbox = (listbox ++ added)%list)
  /\ (forall x, x ∈ add_files files listbox <-> x ∈ listbox \/ x ∈ files).
Proof.
  intros Hnd. destruct (add_files_spec files listbox) as (H1 & H2 & H3).
  auto.
Qed.

Lemma add_files_no_duplicates_witness :
  NoDup (add_files ["b.jpg"; "a.jpg"; "b.jpg"] ["a.jpg"])
  /\ (exists added,
        add_files ["b.jpg"; "a.jpg"; "b.jpg"] ["a.jpg"]
        = (["a.jpg"] ++ added)%list)
  /\ (forall x, x ∈ add_files ["b.jpg"; "a.jpg"; "b.jpg"] ["a.jpg"]
                <-> x ∈ ["a.jpg"] \/ x ∈ ["b.jpg"; "a.jpg"; "b.jpg"]).
Proof.
  apply (add_files_no_duplicates ["b.jpg"; "a.jpg"; "b.jpg"] ["a.jpg"]).
  apply NoDup_singleton.
Defined.

Lemma remove_selected_cons (i : nat) (selected : list nat)
    (listbox : list string) :
  remove_selected (i :: selected) listbox
  = delete i (remove_selected selected listbox).
Proof. unfold remove_selected. simpl. now rewrite fold_left_app. Qed.

Lemma unselected_nil (l : list string) :
  forall k, unselected k [] l = l.
Proof.
  induction l as [|x l IH]; intros k; [reflexivity|].
  simpl. rewrite IH.
  destruct (decide (k ∈ [])) as [H|_]; [|reflexivity].
  now apply elem_of_nil in H.
Qed.

Lemma unselected_skip (i : nat) (selected : list nat) (l : list string) :
  forall k, (i < k)%nat ->
            unselected k (i :: selected) l = unselected k selected l.
Proof.
  induction l as [|x l IH]; intros k Hk; [reflexivity|].
  simpl. rewrite (IH (S k)) by lia.
  destruct (decide (k ∈ i :: selected)) as [H|H],
           (decide (k ∈ selected)) as [H'|H']; try reflexivity.
  - apply elem_of_cons in H. destruct H as [->|H]; [lia|contradiction].
  - exfalso. apply H. now apply list_elem_of_further.
Qed.

Lemma delete_unselected (i : nat) (selected : list nat) (l : list string) :
  Forall (lt i) selected ->
  forall k, (k <= i)%nat ->
            delete (i - k)%nat (unselected k selected l)
            = unselected k (i :: selected) l.
Proof.
  intros Hs. induction l as [|x l IH]; intros k Hk; [reflexivity|].
  simpl.
  destruct (decide (k ∈ selected)) as [H|H].
  { exfalso. rewrite List.Forall_forall in Hs.
    apply list_elem_of_In in H. specialize (Hs k H). lia. }
  destruct (decide (k ∈ i :: selected)) as [H'|H'].
  - apply elem_of_cons in H'. destruct H' as [->|H']; [|contradiction].
    rewrite Nat.sub_diag. simpl. now rewrite unselected_skip by lia.
  - assert (Hne : k <> i) by (intros ->; apply H'; apply list_elem_of_here).
    replace (i - k)%nat with (S (i - S k)) by lia.
    simpl. f_equal. apply IH. lia.
Qed.

(** X26: Deleting the selected positions from the last to the first removes
    exactly the items that were selected: what is left are the items at
    the other positions, in their order. *)
Theorem remove_selected_removes_selection (selected : list nat)
    (listbox : list string) :
  increasing selected ->
  remove_selected selected listbox = unselected 0 selected listbox.
Proof.
  induction selected as [|i selected IH]; intros Hs.
  - symmetry. apply unselected_nil.
  - destruct Hs as [Hi Hs]. rewrite remove_selected_cons, (IH Hs).
    rewrite <- (delete_unselected i selected listbox Hi 0%nat) by lia.
    now rewrite Nat.sub_0_r.
Qed.

Lemma remove_selected_removes_selection_witness :
  remove_selected [0; 2]%nat ["a.jpg"; "b.jpg"; "c.jpg"; "d.jpg"]
  = unselected 0 [0; 2]%nat ["a.jpg"; "b.jpg"; "c.jpg"; "d.jpg"].
Proof.
  apply (remove_selected_removes_selection [0; 2]%nat).
  simpl. repeat constructor.
Defined.
